(** * go-mcp-rest: the MCP server generator (cmd/mcp-rest-server-gen)

    A shallow embedding of the generator's [main.go]: the operation
    extractor ([processOperation] and the path loop of [generateMCPServer]),
    the loader ([loadOpenAPISpec]) and the code synthesizer (the jennifer
    statement list built by [generateMCPServer]), followed by the
    properties of the generator that the design document states. The
    command line of the generator ([main], [extractAppNameFromURL]) and the
    client generator (cmd/mcp-rest-client-gen: [main], [getSpecContent],
    [createConfigContent]) are embedded after it, with properties read off
    their code.

    Go strings are byte strings ([string]); a Go [error] is carried by its
    text; a nil pointer is [None]; a Go [map] is a [gmap], and the order in
    which [range] visits it is supplied from outside, as the language leaves
    it open. *)

From stdpp Require Import base strings list gmap fin_maps pretty.
From Stdlib Require Import ZArith Ascii.

Local Open Scope Z_scope.

(** ** The parsed API description (package openapi3 of kin-openapi)

    Only the fields the generator reads, plus the two method slots of a path
    item that it never reads ([Connect] and [Trace]). *)
Module openapi3.

(** The struct [RequestBody] (named apart from the field of [Operation]
    that points to it). *)
Record RequestBodyDef := mkRequestBodyDef {
  BodyDescription : string;
  Required : bool
}.

(** [*RequestBodyRef]: a reference and, once resolved, its value. *)
Record RequestBodyRef := mkRequestBodyRef {
  Ref : string;
  Value : option RequestBodyDef
}.

Record Operation := mkOperation {
  OperationID : string;
  Summary : string;
  Description : string;
  RequestBody : option RequestBodyRef
}.

Record PathItem := mkPathItem {
  Connect : option Operation;
  Delete : option Operation;
  Get : option Operation;
  Head : option Operation;
  Options : option Operation;
  Patch : option Operation;
  Post : option Operation;
  Put : option Operation;
  Trace : option Operation
}.

(** [openapi3.T], reduced to [doc.Paths.Map()]. *)
Record T := mkT {
  Paths : gmap string PathItem
}.

(** [doc.Paths.Find(path)] for a key of the map: the item stored at that
    key (the search by normalised path template, which [Find] falls back
    to, only runs for a key without item; a validated document has none). *)
Definition Find (doc : T) (path : string) : option PathItem :=
  Paths doc !! path.

End openapi3.

(** ** OperationInfo holds information about an API operation *)
Record OperationInfo := mkOperationInfo {
  ID : string;
  Summary : string;
  Description : string;
  ParameterType : string;
  HasRequestBody : bool
}.

#[global] Instance OperationInfo_eq_dec : EqDecision OperationInfo.
Proof. solve_decision. Defined.

(** The Operation Table: [map[string]OperationInfo]. *)
Abbreviation OperationTable := (gmap string OperationInfo).

(** ** processOperation handles an individual operation within a path

    [operations[k] = v] on the Go map is [<[k:=v]>]; the function returns the
    updated table. *)
Definition processOperation (path method : string)
    (operation : option openapi3.Operation)
    (operations : OperationTable) : OperationTable :=
  match operation with
  | None => operations
  | Some operation =>
    if decide (openapi3.OperationID operation = "") then operations
    else
      let paramType := openapi3.OperationID operation +:+ "Params" in
      let hasRequestBody := false in
      let '(hasRequestBody, paramType) :=
        match openapi3.RequestBody operation with
        | Some body =>
          match openapi3.Value body with
          | Some _ =>
            (true, openapi3.OperationID operation +:+ "JSONRequestBody")
          | None => (hasRequestBody, paramType)
          end
        | None => (hasRequestBody, paramType)
        end in
      let summary := openapi3.Summary operation in
      let summary :=
        if decide (summary = "") then method +:+ " " +:+ path else summary in
      let description := openapi3.Description operation in
      let description :=
        if decide (description = "") then summary else description in
      <[openapi3.OperationID operation :=
          {| ID := openapi3.OperationID operation;
             Summary := summary;
             Description := description;
             ParameterType := paramType;
             HasRequestBody := hasRequestBody |}]> operations
  end.

(** The seven calls made for one path item, in the order of the source. *)
Definition processPathItem (path : string) (pathItem : openapi3.PathItem)
    (operations : OperationTable) : OperationTable :=
  let operations := processOperation path "GET" (openapi3.Get pathItem) operations in
  let operations := processOperation path "POST" (openapi3.Post pathItem) operations in
  let operations := processOperation path "PUT" (openapi3.Put pathItem) operations in
  let operations := processOperation path "DELETE" (openapi3.Delete pathItem) operations in
  let operations := processOperation path "PATCH" (openapi3.Patch pathItem) operations in
  let operations := processOperation path "HEAD" (openapi3.Head pathItem) operations in
  processOperation path "OPTIONS" (openapi3.Options pathItem) operations.

(** The extraction loop [for path := range doc.Paths.Map()], run over the
    keys in the order [paths] in which the range statement yields them. *)
Definition extractOperations (doc : openapi3.T) (paths : list string)
    : OperationTable :=
  foldl (fun operations path =>
           match openapi3.Find doc path with
           | None => operations
           | Some pathItem => processPathItem path pathItem operations
           end) ∅ paths.

(** ** CLI represents the command-line interface configuration *)
Record CLIConfig := mkCLI {
  Spec : string;
  Output : string;
  Package : string;
  ClientPackage : string;
  ClientImport : string;
  ServerURL : string;
  UsernameEnv : string;
  PasswordEnv : string
}.

(** ** The jennifer program representation (package jen)

    A jennifer [*Statement] is a sequence of tokens; each builder method
    appends one. [Stmt] is such a sequence, and the other constructors are
    the tokens the generator uses, named after the builder methods. A chain
    [jen.A(x).B(y)] is [Stmt [A x; B y]]. *)
Module jen.

#[warnings="-register-all"] Inductive Code :=
| Id (name : string)
| Op (op : string)
| Lit (v : string)
| LitInt (v : Z)
| Qual (path name : string)
| Dot (name : string)
| Call (params : list Code)
| Params (params : list Code)
| List (items : list Code)
| Block (statements : list Code)
| Struct (fields : list Code)
| If (conditions : list Code)
| Return (results : list Code)
| Make (args : list Code)
| Panic (arg : Code)
| Tag (items : gmap string string)
| Var
| String
| Chan
| Err
| Nil
| Error
| Func
| Stmt (tokens : list Code).

(** [*jen.File]: the package name of [NewFile], the [ImportName] calls in
    order, and the declarations added to the file. *)
Record File := mkFile {
  PackageName : string;
  ImportNames : list (string * string);
  Decls : list Code
}.

End jen.

Import jen.

(** ** The code synthesizer

    The parts of [generateMCPServer] that build the program, split at the
    places where the source appends to [mainBody]. *)
Section Synthesizer.

Variable CLI : CLIConfig.

(** The initial value of [mainBody]: flags, done channel, basic auth, REST
    client, server. *)
Definition mainBodyHead : list Code :=
  [ Stmt [Var; Id "cli"; Op "=";
          Struct [
            Stmt [Id "Host"; String;
                  Tag {[ "help" := "API server host"; "default" := ServerURL CLI ]}];
            Stmt [Id "Username"; String;
                  Tag {[ "help" := "API username"; "env" := UsernameEnv CLI ]}];
            Stmt [Id "Password"; String;
                  Tag {[ "help" := "API password"; "env" := PasswordEnv CLI ]}] ];
          Op "{}"];
    Stmt [Qual "github.com/alecthomas/kong" "Parse";
          Call [Stmt [Op "&"; Id "cli"]]];
    Stmt [Id "done"; Op ":="; Make [Stmt [Chan; Struct []]]];
    Stmt [List [Stmt [Id "basicAuth"]; Stmt [Err]]; Op ":=";
          Qual "github.com/oapi-codegen/oapi-codegen/v2/pkg/securityprovider"
               "NewSecurityProviderBasicAuth";
          Call [Stmt [Id "cli"; Dot "Username"];
                Stmt [Id "cli"; Dot "Password"]]];
    Stmt [If [Stmt [Err; Op "!="; Nil]];
          Block [Stmt [Qual "log" "Fatal"; Call [Stmt [Err]]]]];
    Stmt [List [Stmt [Id "restClient"]; Stmt [Err]]; Op ":=";
          Qual (ClientImport CLI) "NewClientWithResponses";
          Call [Stmt [Id "cli"; Dot "Host"];
                Stmt [Qual (ClientImport CLI) "WithRequestEditorFn";
                      Call [Stmt [Id "basicAuth"; Dot "Intercept"]]]]];
    Stmt [If [Stmt [Err; Op "!="; Nil]];
          Block [Stmt [Panic (Stmt [Err])]]];
    Stmt [Id "server"; Op ":=";
          Qual "github.com/metoro-io/mcp-golang" "NewServer";
          Call [Stmt [Qual "github.com/metoro-io/mcp-golang/transport/stdio"
                           "NewStdioServerTransport";
                      Call []]]] ].

(** [paramExpr]: the argument of the REST call. *)
Definition paramExpr (op : OperationInfo) : Code :=
  let paramExpr := Stmt [Id "arguments"] in
  if negb (HasRequestBody op) then Stmt [Op "&"; Id "arguments"]
  else paramExpr.

(** The block of the handler function literal. *)
Definition handlerBlock (op : OperationInfo) : list Code :=
  [ Stmt [List [Stmt [Id "resp"]; Stmt [Err]]; Op ":=";
          Id "restClient"; Dot (ID op +:+ "WithResponse");
          Call [Stmt [Qual "context" "TODO"; Call []]; paramExpr op]];
    Stmt [If [Stmt [Err; Op "!="; Nil]];
          Block [Stmt [Return [
            Stmt [Nil];
            Stmt [Qual "fmt" "Errorf";
                  Call [Stmt [Lit ("error calling " +:+ ID op +:+ ": %v")];
                        Stmt [Err]]]]]]];
    Stmt [If [Stmt [Id "resp"; Dot "StatusCode"; Call []; Op "!="; LitInt 200]];
          Block [Stmt [Return [
            Stmt [Nil];
            Stmt [Qual "fmt" "Errorf";
                  Call [Stmt [Lit ("error on " +:+ ID op +:+ ": %s")];
                        Stmt [Id "resp"; Dot "Status"; Call []]]]]]]];
    Stmt [Return [
      Stmt [Qual "github.com/metoro-io/mcp-golang" "NewToolResponse";
            Call [Stmt [Qual "github.com/metoro-io/mcp-golang" "NewTextContent";
                        Call [Stmt [String;
                                    Call [Stmt [Id "resp"; Dot "Body"]]]]]]];
      Stmt [Nil]]] ].

(** The two statements appended for one operation: the [RegisterTool]
    call and the check of its error. *)
Definition registerTool (op : OperationInfo) : list Code :=
  [ Stmt [Err; Op "="; Id "server"; Dot "RegisterTool";
          Call [
            Stmt [Lit (ID op)];
            Stmt [Lit (Description op)];
            Stmt [Func;
                  Params [Stmt [Id "arguments";
                                Qual (ClientImport CLI) (ParameterType op)]];
                  Params [Stmt [Op "*";
                                Qual "github.com/metoro-io/mcp-golang" "ToolResponse"];
                          Stmt [Error]];
                  Block (handlerBlock op)]]];
    Stmt [If [Stmt [Err; Op "!="; Nil]];
          Block [Stmt [Panic (Stmt [Err])]]] ].

(** The loop [for _, op := range operations], run over the values in the
    order [ops] in which the range statement yields them. *)
Definition appendRegistrations (mainBody : list Code)
    (ops : list OperationInfo) : list Code :=
  foldl (fun mainBody op => mainBody ++ registerTool op) mainBody ops.

(** Server start and wait for done. *)
Definition mainBodyTail : list Code :=
  [ Stmt [Err; Op "="; Id "server"; Dot "Serve"; Call []];
    Stmt [If [Stmt [Err; Op "!="; Nil]];
          Block [Stmt [Panic (Stmt [Err])]]];
    Stmt [Qual "log/slog" "Info"; Call [Stmt [Lit "Server started"]]];
    Stmt [Op "<-"; Id "done"] ].

Definition mainBody (ops : list OperationInfo) : list Code :=
  appendRegistrations mainBodyHead ops ++ mainBodyTail.

(** The file handed to [f.Save]. *)
Definition synthesize (ops : list OperationInfo) : File :=
  {| PackageName := Package CLI;
     ImportNames :=
       [ ("context", "context");
         ("fmt", "fmt");
         ("log", "log");
         ("log/slog", "slog");
         ("os", "os");
         ("github.com/metoro-io/mcp-golang", "mcp_golang");
         ("github.com/metoro-io/mcp-golang/transport/stdio", "stdio");
         ("github.com/oapi-codegen/oapi-codegen/v2/pkg/securityprovider",
          "securityprovider");
         ("github.com/alecthomas/kong", "kong");
         (ClientImport CLI, ClientPackage CLI) ];
     Decls := [ Stmt [Func; Id "main"; Params []; Block (mainBody ops)] ] |}.

End Synthesizer.

(** ** Effects

    The generator prints to standard output, reads the description and
    finally calls [f.Save]. A run is described by the events it produces, in
    order, and by what it returns: a Go [error] (its text) or a value. *)
Inductive Event :=
| Printf (text : string)
| SaveFile (f : File) (path : string).

Inductive result (A : Type) :=
| Ok (a : A)
| Failed (err : string).
Arguments Ok {A} a.
Arguments Failed {A} err.

Definition M (A : Type) : Type := (list Event * result A)%type.

Definition ret {A} (a : A) : M A := ([], Ok a).
Definition fail {A} (err : string) : M A := ([], Failed err).
Definition emit (e : Event) : M unit := ([e], Ok tt).
Definition bind {A B} (m : M A) (k : A → M B) : M B :=
  match m with
  | (out, Ok a) => let '(out', r) := k a in (out ++ out', r)
  | (out, Failed err) => (out, Failed err)
  end.

#[global] Instance M_ret : MRet M := @ret.
#[global] Instance M_bind : MBind M := λ A B k m, bind m k.

(** The line feed that ends the lines the generator prints. *)
Definition LF : string := String.String "010"%char EmptyString.

(** [events m] are the events of a run, [outcome m] is what it returned. *)
Definition events {A} (m : M A) : list Event := m.1.
Definition outcome {A} (m : M A) : result A := m.2.

(** [fmt.Errorf(prefix + "%w", err)]: the error whose text is the prefix
    followed by the text of [err]. *)
Definition wrap {A} (prefix : string) (r : result A) : M A :=
  match r with
  | Ok a => ret a
  | Failed err => fail (prefix +:+ err)
  end.

(** ** The world outside the generator

    What the standard library, kin-openapi and jennifer answer when the
    generator calls them, and the order in which the two [range] statements
    visit their maps. *)
Record URL := mkURL {
  Scheme : string;
  Path : string
}.

(** [*http.Response]; [Body] is what [io.ReadAll(resp.Body)] returns. *)
Record Response := mkResponse {
  StatusCode : Z;
  Status : string;
  Body : result string
}.

Record Runtime := mkRuntime {
  url_Parse : string → result URL;
  http_Get : string → result Response;
  LoadFromData : string → result openapi3.T;
  LoadFromFile : string → result openapi3.T;
  Validate : openapi3.T → option string;
  rangePaths : gmap string openapi3.PathItem → list string;
  rangeOperations : OperationTable → list OperationInfo;
  Save : File → string → option string
}.

(** What Go guarantees of a [range] over a map: every entry is visited
    exactly once, in an order that is not specified. *)
Definition GoRange (rt : Runtime) : Prop :=
  (∀ paths, rangePaths rt paths ≡ₚ (map_to_list paths).*1) ∧
  (∀ operations, rangeOperations rt operations ≡ₚ (map_to_list operations).*2).

Section Generator.

Variable rt : Runtime.
Variable CLI : CLIConfig.

(** ** loadOpenAPISpec loads an OpenAPI specification from either a file
    or URL *)
Definition loadOpenAPISpec (specPath : string) : M openapi3.T :=
  let isURL :=
    match url_Parse rt specPath with
    | Ok parsedURL =>
      bool_decide (Scheme parsedURL = "http" ∨ Scheme parsedURL = "https")
    | Failed _ => false
    end in
  doc ←
    (if isURL then
       emit (Printf ("Loading OpenAPI spec from URL: " +:+ specPath +:+ LF));;
       resp ← wrap "error fetching from URL: " (http_Get rt specPath);
       if decide (StatusCode resp ≠ 200) then
         fail ("HTTP error: " +:+ pretty (StatusCode resp)
               +:+ " " +:+ Status resp)
       else
         content ← wrap "error reading response body: " (Body resp);
         wrap "error parsing OpenAPI spec: " (LoadFromData rt content)
     else
       emit (Printf ("Loading OpenAPI spec from file: " +:+ specPath +:+ LF));;
       wrap "error loading OpenAPI spec from file: "
            (LoadFromFile rt specPath));
  match Validate rt doc with
  | Some err => fail ("invalid OpenAPI spec: " +:+ err)
  | None => ret doc
  end.

(** [f.Save(CLI.Output)]: the call is recorded, its result is the
    runtime's. *)
Definition save (f : File) (path : string) : M unit :=
  emit (SaveFile f path);;
  match Save rt f path with
  | Some err => fail err
  | None => ret tt
  end.

(** ** generateMCPServer *)
Definition generateMCPServer : M unit :=
  doc ← loadOpenAPISpec (Spec CLI);
  let operations :=
    extractOperations doc (rangePaths rt (openapi3.Paths doc)) in
  if decide (size operations = 0%nat) then
    fail "no valid operations found in the OpenAPI spec"
  else
    emit (Printf ("Found " +:+ pretty (size operations)
                  +:+ " operations in the OpenAPI spec" +:+ LF));;
    save (synthesize CLI (rangeOperations rt operations)) (Output CLI).

End Generator.

(** ** Reading the synthesized program

    Which tools does a statement list register, and what does a synthesized
    handler do when it runs? Both are read off the jennifer statements, for
    the statement forms the generator emits (the generated [main.go] in the
    repository shows their Go text). *)

(** The tool name of a statement [err = server.RegisterTool(name, ...)]. *)
Definition registeredTool (c : Code) : option string :=
  match c with
  | Stmt [Err; Op o; Id receiver; Dot method; Call (Stmt [Lit name] :: _)] =>
    if bool_decide (o = "=" ∧ receiver = "server" ∧ method = "RegisterTool")
    then Some name else None
  | _ => None
  end.

(** The tool names registered by a statement list, in order. *)
Definition registeredTools (body : list Code) : list string :=
  omap registeredTool body.

(** The statements of [func main] of a file. *)
Definition mainOf (f : File) : list Code :=
  match Decls f with
  | [Stmt [Func; Id name; Params []; Block body]] =>
    if decide (name = "main") then body else []
  | _ => []
  end.

(** [fmt.Sprintf] for operands that are strings or errors, on formats whose
    verbs are [%v], [%s] and [%%], one operand per verb; formats outside
    this fragment are not given a value. *)
Fixpoint Sprintf (format : string) (operands : list string) : option string :=
  match format with
  | EmptyString =>
    match operands with [] => Some EmptyString | _ => None end
  | String.String c rest =>
    if decide (c = "%"%char) then
      match rest with
      | EmptyString => None
      | String.String verb rest' =>
        if decide (verb = "%"%char) then String.String "%"%char <$> Sprintf rest' operands
        else if decide (verb = "v"%char ∨ verb = "s"%char) then
          match operands with
          | operand :: operands' => String.append operand <$> Sprintf rest' operands'
          | [] => None
          end
        else None
      end
    else String.String c <$> Sprintf rest operands
  end.

(** The response type of the typed REST client: [StatusCode()], [Status()]
    and the [Body] bytes. *)
Record ClientResponse := mkClientResponse {
  RespStatusCode : Z;
  RespStatus : string;
  RespBody : string
}.

(** What [restClient.<Method>(ctx, arg)] returns: [(nil, err)] or
    [(resp, nil)]. *)
Inductive CallResult :=
| CallFailed (err : string)
| CallReturned (resp : ClientResponse).

(** What a handler returns: [(NewToolResponse(NewTextContent(s)), nil)] or
    [(nil, err)]. *)
Inductive ToolResult :=
| ToolText (content : string)
| ToolError (err : string).

(** The variables [resp] and [err] of a handler after the REST call. *)
Definition errOf (r : CallResult) : option string :=
  match r with CallFailed err => Some err | CallReturned _ => None end.
Definition respOf (r : CallResult) : option ClientResponse :=
  match r with CallFailed _ => None | CallReturned resp => Some resp end.

(** Conditions: [err != nil] and [resp.StatusCode() != n]. *)
Definition evalCond (r : CallResult) (c : Code) : option bool :=
  match c with
  | Stmt [Err; Op o; Nil] =>
    if decide (o = "!=") then Some (bool_decide (is_Some (errOf r))) else None
  | Stmt [Id x; Dot method; Call []; Op o; LitInt n] =>
    if bool_decide (x = "resp" ∧ method = "StatusCode" ∧ o = "!=") then
      resp ← respOf r; Some (bool_decide (RespStatusCode resp ≠ n))
    else None
  | _ => None
  end.

(** Operands of [fmt.Errorf]: [err] and [resp.Status()], as text. *)
Definition evalOperand (r : CallResult) (c : Code) : option string :=
  match c with
  | Stmt [Err] => errOf r
  | Stmt [Id x; Dot method; Call []] =>
    if bool_decide (x = "resp" ∧ method = "Status") then
      RespStatus <$> respOf r
    else None
  | _ => None
  end.

(** Return statements: [return nil, fmt.Errorf(format, operand)] and
    [return mcp_golang.NewToolResponse(mcp_golang.NewTextContent(
    string(resp.Body))), nil]. *)
Definition evalReturn (r : CallResult) (c : Code) : option ToolResult :=
  match c with
  | Stmt [Return [Stmt [Nil];
                  Stmt [Qual pkg f; Call [Stmt [Lit format]; operand]]]] =>
    if bool_decide (pkg = "fmt" ∧ f = "Errorf") then
      text ← evalOperand r operand;
      ToolError <$> Sprintf format [text]
    else None
  | Stmt [Return [
      Stmt [Qual pkg1 f1;
            Call [Stmt [Qual pkg2 f2;
                        Call [Stmt [String;
                                    Call [Stmt [Id x; Dot field]]]]]]];
      Stmt [Nil]]] =>
    if bool_decide (pkg1 = "github.com/metoro-io/mcp-golang"
                    ∧ f1 = "NewToolResponse"
                    ∧ pkg2 = "github.com/metoro-io/mcp-golang"
                    ∧ f2 = "NewTextContent"
                    ∧ x = "resp" ∧ field = "Body") then
      ToolText ∘ RespBody <$> respOf r
    else None
  | _ => None
  end.

(** The statements after the REST call: [if cond { return ... }] guards and
    a final return. *)
Fixpoint execStatements (r : CallResult) (statements : list Code)
    : option ToolResult :=
  match statements with
  | [] => None
  | Stmt [If [cond]; Block [body]] :: rest =>
    b ← evalCond r cond;
    if b : bool then evalReturn r body else execStatements r rest
  | statement :: _ => evalReturn r statement
  end.

(** A handler block: [resp, err := restClient.<method>(context.TODO(),
    arg)] followed by the statements above. The client answers by method
    name. *)
Definition runHandler (restClient : string → CallResult) (block : list Code)
    : option ToolResult :=
  match block with
  | Stmt [List [Stmt [Id x]; Stmt [Err]]; Op o; Id receiver; Dot method;
          Call [_; _]] :: rest =>
    if bool_decide (x = "resp" ∧ o = ":=" ∧ receiver = "restClient") then
      execStatements (restClient method) rest
    else None
  | _ => None
  end.

(** ** Vocabulary of the properties *)

(** The condition under which [processOperation] takes the request-body
    branch: [operation.RequestBody != nil && operation.RequestBody.Value !=
    nil]. *)
Definition carriesRequestBody (operation : openapi3.Operation) : bool :=
  match openapi3.RequestBody operation with
  | Some body => bool_decide (is_Some (openapi3.Value body))
  | None => false
  end.

(** The record that [processOperation] stores for a definition, if any. *)
Definition recordOf (path method : string) (operation : openapi3.Operation)
    : option OperationInfo :=
  processOperation path method (Some operation) ∅
    !! openapi3.OperationID operation.

(** The second argument of the REST call of a handler block. *)
Definition callArgument (block : list Code) : option Code :=
  match block with
  | Stmt [List _; Op _; Id _; Dot _; Call [_; argument]] :: _ => Some argument
  | _ => None
  end.

(** The method slots of a path item that [generateMCPServer] passes to
    [processOperation], with the method name it passes, in call order. *)
Definition inspectedSlots (pathItem : openapi3.PathItem)
    : list (string * option openapi3.Operation) :=
  [ ("GET", openapi3.Get pathItem);
    ("POST", openapi3.Post pathItem);
    ("PUT", openapi3.Put pathItem);
    ("DELETE", openapi3.Delete pathItem);
    ("PATCH", openapi3.Patch pathItem);
    ("HEAD", openapi3.Head pathItem);
    ("OPTIONS", openapi3.Options pathItem) ].

(** One call of [processOperation] on a definition that is present. *)
Record ProcessCall := mkProcessCall {
  callPath : string;
  callMethod : string;
  callOperation : openapi3.Operation
}.

Definition callsOfPathItem (path : string) (pathItem : openapi3.PathItem)
    : list ProcessCall :=
  omap (λ slot, mkProcessCall path slot.1 <$> slot.2) (inspectedSlots pathItem).

(** All such calls of a run of the extraction loop, in the order made. *)
Definition callsOf (doc : openapi3.T) (paths : list string)
    : list ProcessCall :=
  mbind (M := list) (λ path,
           match openapi3.Find doc path with
           | None => []
           | Some pathItem => callsOfPathItem path pathItem
           end) paths.

Definition applyCall (operations : OperationTable) (c : ProcessCall)
    : OperationTable :=
  processOperation (callPath c) (callMethod c) (Some (callOperation c))
    operations.

(** The calls that carry a given identifier. *)
Definition callsWithID (id : string) (calls : list ProcessCall)
    : list ProcessCall :=
  filter (λ c, openapi3.OperationID (callOperation c) = id) calls.

(** The identifier occurs in the description under one of the seven
    inspected methods. *)
Definition definesOperation (doc : openapi3.T) (id : string) : Prop :=
  ∃ path pathItem method operation,
    openapi3.Paths doc !! path = Some pathItem ∧
    (method, Some operation) ∈ inspectedSlots pathItem ∧
    openapi3.OperationID operation = id.

(** The invariant of the Operation Table. *)
Definition WellFormedOperation (key : string) (op : OperationInfo) : Prop :=
  ID op = key ∧ key ≠ "" ∧ Summary op ≠ "" ∧ Description op ≠ "" ∧
  ParameterType op =
    ID op +:+ (if HasRequestBody op then "JSONRequestBody" else "Params").

Definition TableInvariant (operations : OperationTable) : Prop :=
  map_Forall WellFormedOperation operations.


(** How often a name occurs in a list of names. *)
Definition occurrences (name : string) (names : list string) : nat :=
  length (filter (λ n, n = name) names).

(** The record a call stores, if any. *)
Definition recordOfCall (c : ProcessCall) : option OperationInfo :=
  recordOf (callPath c) (callMethod c) (callOperation c).

(** The files a run handed to [f.Save], with their paths. *)
Definition savedFiles (out : list Event) : list (File * string) :=
  omap (λ e, match e with
             | SaveFile f path => Some (f, path)
             | Printf _ => None
             end) out.

(** The description after the loader has succeeded. *)
Definition loaded (rt : Runtime) (CLI : CLIConfig) (doc : openapi3.T) : Prop :=
  outcome (loadOpenAPISpec rt (Spec CLI)) = Ok doc.

(** The Operation Table of a run on a loaded description. *)
Definition tableOf (rt : Runtime) (doc : openapi3.T) : OperationTable :=
  extractOperations doc (rangePaths rt (openapi3.Paths doc)).

(** Two worlds give the generator the same answers, whatever the order of
    their ranges. *)
Definition sameWorld (rt1 rt2 : Runtime) : Prop :=
  (∀ rawURL, url_Parse rt1 rawURL = url_Parse rt2 rawURL) ∧
  (∀ url, http_Get rt1 url = http_Get rt2 url) ∧
  (∀ data, LoadFromData rt1 data = LoadFromData rt2 data) ∧
  (∀ location, LoadFromFile rt1 location = LoadFromFile rt2 location) ∧
  (∀ doc, Validate rt1 doc = Validate rt2 doc) ∧
  (∀ f path, Save rt1 f path = Save rt2 f path).

(** The two ranges of two worlds visit every map in the same order. *)
Definition sameRangeOrder (rt1 rt2 : Runtime) : Prop :=
  (∀ paths, rangePaths rt1 paths = rangePaths rt2 paths) ∧
  (∀ operations,
     rangeOperations rt1 operations = rangeOperations rt2 operations).

(** The name of the client method a handler calls, and the names the
    generated program takes from the client package for an Operation. *)
Definition clientMethod (op : OperationInfo) : string :=
  ID op +:+ "WithResponse".

(** No byte of the string is a percent sign. *)
Fixpoint noPercent (s : string) : bool :=
  match s with
  | EmptyString => true
  | String.String c rest =>
    if decide (c = "%"%char) then false else noPercent rest
  end.

(** The successful class of HTTP status codes, 2xx. *)
Definition successStatus (code : Z) : bool :=
  (200 <=? code) && (code <? 300).

(** The file a run hands to [Save] when it gets that far. *)
Definition generatedFile (rt : Runtime) (cli : CLIConfig) (doc : openapi3.T)
    : File :=
  synthesize cli (rangeOperations rt (tableOf rt doc)).

(** ** The example of the design document

    One path [/books] with [GET] ([ListBooks], no request body, no summary)
    and [POST] ([AddBook], JSON request body, no summary). *)
Module Example.

Definition listBooks : openapi3.Operation :=
  openapi3.mkOperation "ListBooks" "" "" None.

Definition addBook : openapi3.Operation :=
  openapi3.mkOperation "AddBook" "" ""
    (Some (openapi3.mkRequestBodyRef ""
             (Some (openapi3.mkRequestBodyDef "" true)))).

Definition books : openapi3.PathItem :=
  openapi3.mkPathItem None None (Some listBooks) None None None
    (Some addBook) None None.

Definition doc : openapi3.T := openapi3.mkT {[ "/books" := books ]}.

(** The defaults of the command line. *)
Definition cli : CLIConfig :=
  {| Spec := "https://converter.swagger.io/api/convert?url=https://eng-test-us-01-dev.outsystems.app/MCPBackend/rest/Backend/swagger.json";
     Output := "./generated/main.go";
     Package := "main";
     ClientPackage := "api";
     ClientImport := "github.com/renato0307/go-mcp-rest/generated/api";
     ServerURL := "https://eng-test-us-01-dev.outsystems.app/MCPBackend/rest/Backend";
     UsernameEnv := "API_USERNAME";
     PasswordEnv := "API_PASSWORD" |}.

(** A world in which the description is fetched from the URL and parses to
    [d], and [Save] succeeds; the two maps are visited in the order [order]
    puts their entries. *)
Definition world (d : openapi3.T) (order : ∀ A, list A → list A) : Runtime :=
  {| url_Parse := λ _, Ok (mkURL "https" "/api/convert");
     http_Get := λ _, Ok (mkResponse 200 "200 OK" (Ok "{}"));
     LoadFromData := λ _, Ok d;
     LoadFromFile := λ _, Failed "no such file";
     Validate := λ _, None;
     rangePaths := λ paths, order _ (map_to_list paths).*1;
     rangeOperations := λ operations, order _ (map_to_list operations).*2;
     Save := λ _ _, None |}.

Definition rt : Runtime := world doc (λ _ l, l).
Definition rtReversed : Runtime := world doc (@reverse).
Definition rtReversedTwice : Runtime :=
  world doc (λ A l, reverse (reverse l)).

(** The records the extractor stores for the two operations. *)
Definition listBooksInfo : OperationInfo :=
  {| ID := "ListBooks"; Summary := "GET /books"; Description := "GET /books";
     ParameterType := "ListBooksParams"; HasRequestBody := false |}.

Definition addBookInfo : OperationInfo :=
  {| ID := "AddBook"; Summary := "POST /books"; Description := "POST /books";
     ParameterType := "AddBookJSONRequestBody"; HasRequestBody := true |}.

(** The configuration with the server URL left empty. *)
Definition cliNoServerURL : CLIConfig :=
  {| Spec := Spec cli;
     Output := Output cli;
     Package := Package cli;
     ClientPackage := ClientPackage cli;
     ClientImport := ClientImport cli;
     ServerURL := "";
     UsernameEnv := UsernameEnv cli;
     PasswordEnv := PasswordEnv cli |}.

(** A description whose only operation has no identifier. *)
Definition ping : openapi3.Operation :=
  openapi3.mkOperation "" "Ping" "Health check" None.

Definition unusableDoc : openapi3.T :=
  openapi3.mkT
    {[ "/ping" := openapi3.mkPathItem None None (Some ping) None None None
                    None None None ]}.

Definition rtUnusable : Runtime := world unusableDoc (λ _ l, l).

End Example.

(** ** A description with a repeated identifier

    [/books] defines [Books] under [GET] (no request body) and again under
    [POST] (with a request body). *)
Module Duplicate.

Definition getBooks : openapi3.Operation :=
  openapi3.mkOperation "Books" "List the books" "" None.

Definition postBooks : openapi3.Operation :=
  openapi3.mkOperation "Books" "Add a book" ""
    (Some (openapi3.mkRequestBodyRef ""
             (Some (openapi3.mkRequestBodyDef "" true)))).

Definition books : openapi3.PathItem :=
  openapi3.mkPathItem None None (Some getBooks) None None None
    (Some postBooks) None None.

Definition doc : openapi3.T := openapi3.mkT {[ "/books" := books ]}.

End Duplicate.

(** ** The command line of the server generator: main and
    extractAppNameFromURL *)

(** [strings.Split(s, sep)] for a separator of one byte: the substrings of
    [s] between the separators, in order; a string without separator is the
    only element of the result. *)
Fixpoint Split (s : string) (sep : ascii) : list string :=
  match s with
  | EmptyString => [EmptyString]
  | String.String c rest =>
    if decide (c = sep) then EmptyString :: Split rest sep
    else match Split rest sep with
         | part :: parts => String.String c part :: parts
         | [] => [String.String c EmptyString]
         end
  end.

(** The loop [for _, part := range pathParts { if part != "" { return part
    } }]: the first non-empty part, if there is one. *)
Fixpoint firstNonEmpty (pathParts : list string) : option string :=
  match pathParts with
  | [] => None
  | part :: pathParts =>
    if decide (part ≠ "") then Some part else firstNonEmpty pathParts
  end.

(** extractAppNameFromURL extracts the first path segment after the host
    from a URL *)
Definition extractAppNameFromURL (rt : Runtime) (urlStr : string) : string :=
  match url_Parse rt urlStr with
  | Failed _ => "app"
  | Ok parsedURL =>
    let pathParts := Split (Path parsedURL) "/" in
    match firstNonEmpty pathParts with
    | Some part => part
    | None => "app"
    end
  end.

(** What [main] asks of the standard library besides the generator's
    runtime: [strings.ToLower], [filepath.Join] and [os.MkdirAll]. *)
Record Platform := mkPlatform {
  strings_ToLower : string → string;
  filepath_Join : list string → string;
  os_MkdirAll : string → option string
}.

(** The events of [main]: those of the generator and its own prints, and
    the directories it creates. *)
Inductive MainEvent :=
| Generator (e : Event)
| MkdirAll (path : string).

(** How [main] ends: it returns, or [ctx.FatalIfErrorf] ends the process
    with an error. *)
Inductive Exit :=
| Returned
| Fatal (err : string).

(** The assignment [CLI.Output = output]. *)
Definition setOutput (CLI : CLIConfig) (output : string) : CLIConfig :=
  {| Spec := Spec CLI;
     Output := output;
     Package := Package CLI;
     ClientPackage := ClientPackage CLI;
     ClientImport := ClientImport CLI;
     ServerURL := ServerURL CLI;
     UsernameEnv := UsernameEnv CLI;
     PasswordEnv := PasswordEnv CLI |}.

(** The first part of [main]: if the output path is empty, generate it from
    the URL. Returns the configuration the generator then runs with. *)
Definition resolveOutput (rt : Runtime) (os : Platform) (CLI : CLIConfig)
    : list MainEvent * result CLIConfig :=
  if decide (Output CLI = "") then
    let appName := extractAppNameFromURL rt (ServerURL CLI) in
    let outputDir := filepath_Join os ["cmd"; strings_ToLower os appName] in
    match os_MkdirAll os outputDir with
    | Some err =>
      ([MkdirAll outputDir],
       Failed ("error creating output directory: " +:+ err))
    | None =>
      let CLI := setOutput CLI (filepath_Join os [outputDir; "main.go"]) in
      ([MkdirAll outputDir;
        Generator (Printf ("Output file not specified, using: "
                           +:+ Output CLI +:+ LF))],
       Ok CLI)
    end
  else ([], Ok CLI).

(** [main] of the server generator, after [kong.Parse] has filled [CLI]. *)
Definition main (rt : Runtime) (os : Platform) (CLI : CLIConfig)
    : list MainEvent * Exit :=
  match resolveOutput rt os CLI with
  | (out, Failed err) => (out, Fatal err)
  | (out, Ok CLI) =>
    match generateMCPServer rt CLI with
    | (generated, Failed err) => (out ++ (Generator <$> generated), Fatal err)
    | (generated, Ok _) =>
      (out ++ (Generator <$> generated)
           ++ [Generator (Printf ("MCP server generated successfully: "
                                  +:+ Output CLI +:+ LF))],
       Returned)
    end
  end.

(** The directories and the saved files among the events of [main]. *)
Definition createdDirs (out : list MainEvent) : list string :=
  omap (λ e, match e with MkdirAll path => Some path | Generator _ => None end)
       out.

Definition generatorEvents (out : list MainEvent) : list Event :=
  omap (λ e, match e with Generator e => Some e | MkdirAll _ => None end) out.

(** No byte of the string is a slash. *)
Fixpoint noSlash (s : string) : bool :=
  match s with
  | EmptyString => true
  | String.String c rest =>
    if decide (c = "/"%char) then false else noSlash rest
  end.

(** Every byte of the string is a slash. *)
Fixpoint onlySlashes (s : string) : bool :=
  match s with
  | EmptyString => true
  | String.String c rest =>
    if decide (c = "/"%char) then onlySlashes rest else false
  end.

(** A world whose URL parser fails, as [url.Parse] does on a malformed
    URL. *)
Definition rtBadURL : Runtime :=
  {| url_Parse := λ _, Failed "invalid URL escape";
     http_Get := http_Get Example.rt;
     LoadFromData := LoadFromData Example.rt;
     LoadFromFile := LoadFromFile Example.rt;
     Validate := Validate Example.rt;
     rangePaths := rangePaths Example.rt;
     rangeOperations := rangeOperations Example.rt;
     Save := Save Example.rt |}.

(** The labels under which [loadOpenAPISpec] returns its errors. *)
Definition loaderErrorLabels : list string :=
  [ "error fetching from URL: ";
    "HTTP error: ";
    "error reading response body: ";
    "error parsing OpenAPI spec: ";
    "error loading OpenAPI spec from file: ";
    "invalid OpenAPI spec: " ].

(** A platform on which directories can be created, and one on which they
    cannot. [filepath.Join] is given for clean elements: joined by
    slashes. *)
Definition joinPath (elem : list string) : string :=
  match elem with
  | [] => ""
  | first :: rest => foldl (λ path e, path +:+ "/" +:+ e) first rest
  end.

Definition platform : Platform :=
  {| strings_ToLower := λ s, s;
     filepath_Join := joinPath;
     os_MkdirAll := λ _, None |}.

Definition platformReadOnly : Platform :=
  {| strings_ToLower := λ s, s;
     filepath_Join := joinPath;
     os_MkdirAll := λ _, Some "permission denied" |}.

(** The non-empty identifiers of a run of the extraction loop, one per call
    that stores a record, in the order of the calls. *)
Definition usableIDs (doc : openapi3.T) (paths : list string) : list string :=
  filter (λ id, id ≠ "")
         (openapi3.OperationID ∘ callOperation <$> callsOf doc paths).

(** A description with two paths and three operations, all with different
    identifiers. *)
Definition getAuthor : openapi3.Operation :=
  openapi3.mkOperation "GetAuthor" "" "Returns one author" None.

Definition library : openapi3.T :=
  openapi3.mkT
    {[ "/books" := Example.books;
       "/authors/{id}" :=
         openapi3.mkPathItem None None (Some getAuthor) None None None
           None None None ]}.

(** ** The client generator (cmd/mcp-rest-client-gen)

    The second command of the repository fetches the description, writes it
    and a configuration file to a temporary directory, runs [oapi-codegen]
    and writes what that prints to the output file. *)
Module ClientGen.

(** CLI defines the command-line interface structure *)
Record CLI := mkCLI {
  Spec : string;
  OutputDir : string;
  Filename : string;
  Package : string;
  GenerateTypes : bool;
  GenerateClient : bool
}.

(** What the command does to the world, in order. [Run argv] is the start of
    the command [argv] (by [cmd.Run] or [cmd.CombinedOutput]); [Log] carries
    the text handed to the logger. *)
Inductive Event :=
| HttpGet (url : string)
| ReadBody
| ReadFile (name : string)
| MkdirTemp (dir pattern : string)
| WriteFile (name data : string)
| LookPath (file : string)
| Run (argv : list string)
| MkdirAll (path : string)
| RemoveAll (path : string)
| Log (text : string).

(** What the world answers. An [option string] is a Go [error] or nil. *)
Record OS := mkOS {
  http_Get : string → result Response;
  os_ReadFile : string → result string;
  os_MkdirTemp : string → string → result string;
  filepath_Join : list string → string;
  os_WriteFile : string → string → option string;
  exec_LookPath : string → option string;
  cmd_Run : list string → option string;
  cmd_CombinedOutput : list string → string * option string;
  os_MkdirAll : string → option string
}.

(** A computation of the command: its events, and a value or an error. For
    [main] the error is the message with which [ctx.FatalIfErrorf] ends the
    process. *)
Definition P (A : Type) : Type := (list Event * result A)%type.

Definition pret {A} (a : A) : P A := ([], Ok a).
Definition pfail {A} (err : string) : P A := ([], Failed err).
Definition emit (e : Event) : P unit := ([e], Ok tt).
Definition pbind {A B} (m : P A) (k : A → P B) : P B :=
  match m with
  | (out, Ok a) => let '(out', r) := k a in (out ++ out', r)
  | (out, Failed err) => (out, Failed err)
  end.

#[global] Instance P_ret : MRet P := @pret.
#[global] Instance P_bind : MBind P := λ A B k m, pbind m k.

(** [return value, err] of a library call. *)
Definition lift {A} (r : result A) : P A := ([], r).

(** [ctx.FatalIfErrorf(err, message)]: nothing happens when [err] is nil;
    otherwise the process ends with the message, a colon and the text of
    the error. *)
Definition fatalIfError (err : option string) (message : string) : P unit :=
  match err with
  | None => pret tt
  | Some err => pfail (message +:+ ": " +:+ err)
  end.

(** The same for a call that also returns a value. *)
Definition orFatal {A} (m : P A) (message : string) : P A :=
  match m with
  | (out, Failed err) => (out, Failed (message +:+ ": " +:+ err))
  | (out, Ok a) => (out, Ok a)
  end.

(** [defer f()] in [main]: [f] runs when the rest of [main] returns; it
    does not run when the process is ended by [ctx.FatalIfErrorf]. *)
Definition defer {A} (e : Event) (rest : P A) : P A :=
  match rest with
  | (out, Ok a) => (out ++ [e], Ok a)
  | (out, Failed err) => (out, Failed err)
  end.

(** getSpecContent retrieves the OpenAPI spec content from a URL or file
    path *)
Definition getSpecContent (os : OS) (specPath : string) : P string :=
  if String.prefix "http://" specPath || String.prefix "https://" specPath
  then
    emit (HttpGet specPath);;
    match http_Get os specPath with
    | Failed err => pfail ("failed to fetch spec from URL: " +:+ err)
    | Ok resp =>
      if decide (StatusCode resp ≠ 200) then
        pfail ("received non-OK response: " +:+ Status resp)
      else
        emit ReadBody;; lift (Body resp)
    end
  else
    emit (ReadFile specPath);; lift (os_ReadFile os specPath).

(** createConfigContent creates the configuration content for
    oapi-codegen *)
Definition createConfigContent (packageName : string)
    (generateTypes generateClient : bool) : string :=
  let config := "package: " +:+ packageName +:+ LF in
  let config := config +:+ "output: stdout" +:+ LF in
  let config := config +:+ "generate:" +:+ LF in
  let config :=
    if generateTypes then config +:+ "  models: true" +:+ LF
    else config +:+ "  models: false" +:+ LF in
  let config :=
    if generateClient then config +:+ "  client: true" +:+ LF
    else config +:+ "  client: false" +:+ LF in
  let config := config +:+ "  echo-server: false" +:+ LF in
  let config := config +:+ "  chi-server: false" +:+ LF in
  let config := config +:+ "  fiber-server: false" +:+ LF in
  let config := config +:+ "  gin-server: false" +:+ LF in
  let config := config +:+ "  strict-server: false" +:+ LF in
  config.

(** The command line of the direct approach, by the two flags; none when
    both are off. *)
Definition generateCommand (cli : CLI) (tempSpecPath : string)
    : option (list string) :=
  if GenerateClient cli && GenerateTypes cli then
    Some ["oapi-codegen"; "-package"; Package cli;
          "-generate"; "types,client"; tempSpecPath]
  else if GenerateClient cli then
    Some ["oapi-codegen"; "-package"; Package cli;
          "-generate"; "client"; tempSpecPath]
  else if GenerateTypes cli then
    Some ["oapi-codegen"; "-package"; Package cli;
          "-generate"; "types"; tempSpecPath]
  else None.

Definition installCommand : list string :=
  ["go"; "install";
   "github.com/kin-openapi/oapi-codegen/v2/cmd/oapi-codegen@latest"].

(** The block of [main] that runs [oapi-codegen]: the direct command first
    and, when that fails, the command with the configuration file. Returns
    what the successful command printed. *)
Definition runCodegen (os : OS) (cli : CLI)
    (tempSpecPath configPath configContent : string) : P string :=
  cmd ← (match generateCommand cli tempSpecPath with
         | Some cmd => pret cmd
         | None =>
           pfail ("At least one of generate-types or generate-client must be true"
                  +:+ ": " +:+ "invalid options")
         end);
  emit (Run cmd);;
  match cmd_CombinedOutput os cmd with
  | (output, Some _) =>
    emit (Log ("Error output from oapi-codegen:" +:+ LF));;
    emit (Log (output +:+ LF));;
    let configCmd := ["oapi-codegen"; "-config"; configPath; tempSpecPath] in
    emit (Run configCmd);;
    match cmd_CombinedOutput os configCmd with
    | (output, Some err) =>
      emit (Log ("Config file approach also failed:" +:+ LF));;
      emit (Log (output +:+ LF));;
      emit (Log ("Config file content:" +:+ LF +:+ configContent +:+ LF));;
      pfail ("Error running oapi-codegen" +:+ ": " +:+ err)
    | (output, None) => pret output
    end
  | (output, None) => pret output
  end.

(** The end of [main]: the check for empty output and the write of the
    output file. *)
Definition writeOutput (os : OS) (cli : CLI) (output : string) : P unit :=
  (if decide (String.length output = 0%nat) then
     emit (Log ("Warning: oapi-codegen produced empty output" +:+ LF));;
     pfail ("oapi-codegen generated empty output" +:+ ": " +:+ "empty output")
   else pret tt);;
  let outputFilePath := filepath_Join os [OutputDir cli; Filename cli] in
  emit (WriteFile outputFilePath output);;
  fatalIfError (os_WriteFile os outputFilePath output)
               "Error writing output file";;
  emit (Log ("Successfully generated client code at "
             +:+ outputFilePath +:+ LF)).

(** The part of [main] after [defer os.RemoveAll(tempDir)]. *)
Definition inTempDir (os : OS) (cli : CLI) (specContent tempDir : string)
    : P unit :=
  let tempSpecPath := filepath_Join os [tempDir; "spec.yaml"] in
  emit (WriteFile tempSpecPath specContent);;
  fatalIfError (os_WriteFile os tempSpecPath specContent)
               "Error writing spec to temp file";;
  let configPath := filepath_Join os [tempDir; "config.yaml"] in
  let configContent :=
    createConfigContent (Package cli) (GenerateTypes cli)
                        (GenerateClient cli) in
  emit (WriteFile configPath configContent);;
  fatalIfError (os_WriteFile os configPath configContent)
               "Error writing config file";;
  emit (LookPath "oapi-codegen");;
  (match exec_LookPath os "oapi-codegen" with
   | Some _ =>
     emit (Log ("oapi-codegen not found. Installing..." +:+ LF));;
     emit (Run installCommand);;
     fatalIfError (cmd_Run os installCommand) "Error installing oapi-codegen"
   | None => pret tt
   end);;
  emit (MkdirAll (OutputDir cli));;
  fatalIfError (os_MkdirAll os (OutputDir cli))
               "Error creating output directory";;
  emit (Log ("Generating client code..." +:+ LF));;
  emit (Run ["oapi-codegen"; "--version"]);;
  let versionOutput :=
    (cmd_CombinedOutput os ["oapi-codegen"; "--version"]).1 in
  emit (Log ("oapi-codegen version: " +:+ versionOutput +:+ LF));;
  output ← runCodegen os cli tempSpecPath configPath configContent;
  writeOutput os cli output.

(** [main] of the client generator, after [kong.Parse] has filled [cli]. *)
Definition main (os : OS) (cli : CLI) : P unit :=
  specContent ← orFatal (getSpecContent os (Spec cli))
                        "Error getting spec content";
  emit (MkdirTemp "" "oapi-codegen");;
  tempDir ← orFatal (lift (os_MkdirTemp os "" "oapi-codegen"))
                    "Error creating temp directory";
  defer (RemoveAll tempDir) (inTempDir os cli specContent tempDir).

(** Observations on the events of a run. *)
Definition written (out : list Event) : list (string * string) :=
  omap (λ e, match e with
             | WriteFile name data => Some (name, data)
             | _ => None
             end) out.

Definition removed (out : list Event) : list string :=
  omap (λ e, match e with RemoveAll path => Some path | _ => None end) out.

Definition commands (out : list Event) : list (list string) :=
  omap (λ e, match e with Run argv => Some argv | _ => None end) out.

Definition requests (out : list Event) : list string :=
  omap (λ e, match e with HttpGet url => Some url | _ => None end) out.

Definition fileReads (out : list Event) : list string :=
  omap (λ e, match e with ReadFile name => Some name | _ => None end) out.

Definition bodyReads (out : list Event) : list unit :=
  omap (λ e, match e with ReadBody => Some tt | _ => None end) out.

End ClientGen.

(** A run of the client generator in a world where everything works: the
    description is served over HTTP and [oapi-codegen] is installed and
    prints the client. *)
Module ClientExample.

Definition cli : ClientGen.CLI :=
  {| ClientGen.Spec := "https://example.com/api/openapi.json";
     ClientGen.OutputDir := "./generated/api";
     ClientGen.Filename := "client.go";
     ClientGen.Package := "api";
     ClientGen.GenerateTypes := true;
     ClientGen.GenerateClient := true |}.

Definition os : ClientGen.OS :=
  {| ClientGen.http_Get := λ _, Ok (mkResponse 200 "200 OK" (Ok "openapi: 3.0.0"));
     ClientGen.os_ReadFile := λ _, Failed "no such file";
     ClientGen.os_MkdirTemp := λ _ _, Ok "/tmp/oapi-codegen1";
     ClientGen.filepath_Join := joinPath;
     ClientGen.os_WriteFile := λ _ _, None;
     ClientGen.exec_LookPath := λ _, None;
     ClientGen.cmd_Run := λ _, None;
     ClientGen.cmd_CombinedOutput := λ _, ("package api", None);
     ClientGen.os_MkdirAll := λ _, None |}.

(** The same with both generate flags switched off. *)
Definition cliNothing : ClientGen.CLI :=
  {| ClientGen.Spec := ClientGen.Spec cli;
     ClientGen.OutputDir := ClientGen.OutputDir cli;
     ClientGen.Filename := ClientGen.Filename cli;
     ClientGen.Package := ClientGen.Package cli;
     ClientGen.GenerateTypes := false;
     ClientGen.GenerateClient := false |}.

(** A world in which the direct command fails and the command with the
    configuration file works. *)
Definition osOldCodegen : ClientGen.OS :=
  {| ClientGen.http_Get := ClientGen.http_Get os;
     ClientGen.os_ReadFile := ClientGen.os_ReadFile os;
     ClientGen.os_MkdirTemp := ClientGen.os_MkdirTemp os;
     ClientGen.filepath_Join := joinPath;
     ClientGen.os_WriteFile := ClientGen.os_WriteFile os;
     ClientGen.exec_LookPath := ClientGen.exec_LookPath os;
     ClientGen.cmd_Run := ClientGen.cmd_Run os;
     ClientGen.cmd_CombinedOutput := λ argv,
       match argv with
       | [_; "-config"; _; _] => ("package api // from config", None)
       | _ => ("unknown flag", Some "exit status 1")
       end;
     ClientGen.os_MkdirAll := ClientGen.os_MkdirAll os |}.

End ClientExample.

(** What [createConfigContent] writes after the package name. *)
Definition configTail (generateTypes generateClient : bool) : string :=
  LF +:+ "output: stdout" +:+ LF +:+ "generate:" +:+ LF
  +:+ (if generateTypes then "  models: true" else "  models: false") +:+ LF
  +:+ (if generateClient then "  client: true" else "  client: false") +:+ LF
  +:+ "  echo-server: false" +:+ LF
  +:+ "  chi-server: false" +:+ LF
  +:+ "  fiber-server: false" +:+ LF
  +:+ "  gin-server: false" +:+ LF
  +:+ "  strict-server: false" +:+ LF.

(** The message with which the client generator rejects a command line
    with both generate flags off. *)
Definition invalidOptions : string :=
  "At least one of generate-types or generate-client must be true: invalid options".

(** Kinds of events of the client generator: those of the retrieval of the
    description, and those of the work inside the temporary directory. *)
Definition fetchEvent (e : ClientGen.Event) : Prop :=
  match e with
  | ClientGen.HttpGet _ | ClientGen.ReadBody | ClientGen.ReadFile _ => True
  | _ => False
  end.

Definition workEvent (e : ClientGen.Event) : Prop :=
  match e with
  | ClientGen.WriteFile _ _ | ClientGen.LookPath _ | ClientGen.Run _
  | ClientGen.MkdirAll _ | ClientGen.Log _ => True
  | _ => False
  end.

(** The location is fetched over HTTP: it starts with [http://] or
    [https://]. *)
Definition isRemote (specPath : string) : bool :=
  String.prefix "http://" specPath || String.prefix "https://" specPath.

(** The events [main] may produce inside the temporary directory when both
    generate flags are off: no command but the installation and the version
    query, no write but those of the two temporary files. *)
Definition preparationEvent (os : ClientGen.OS) (tempDir : string)
    (e : ClientGen.Event) : Prop :=
  match e with
  | ClientGen.Run argv =>
    argv = ClientGen.installCommand ∨ argv = ["oapi-codegen"; "--version"]
  | ClientGen.WriteFile name _ =>
    name = ClientGen.filepath_Join os [tempDir; "spec.yaml"] ∨
    name = ClientGen.filepath_Join os [tempDir; "config.yaml"]
  | _ => True
  end.

(** The order among the commands of a run: the installation is started
    only after [oapi-codegen] was not found, and the command with the
    configuration file only after the direct command failed. *)
Definition orderlyCommand (os : ClientGen.OS) (cli : ClientGen.CLI)
    (e : ClientGen.Event) : Prop :=
  ∀ argv, e = ClientGen.Run argv →
    (argv = ClientGen.installCommand →
     ClientGen.exec_LookPath os "oapi-codegen" ≠ None) ∧
    (∀ configPath tempSpecPath,
       argv = ["oapi-codegen"; "-config"; configPath; tempSpecPath] →
       ∃ cmd output err,
         ClientGen.generateCommand cli tempSpecPath = Some cmd ∧
         ClientGen.cmd_CombinedOutput os cmd = (output, Some err)).

(** * Properties *)

(** ** One call of processOperation *)

Lemma fallback_summary_nonempty (method path : string) :
  method +:+ " " +:+ path ≠ "".
Proof. destruct method; simpl; discriminate. Qed.

Lemma processOperation_no_id path method operation operations :
  openapi3.OperationID operation = "" →
  processOperation path method (Some operation) operations = operations.
Proof. intros Hid. unfold processOperation. by rewrite decide_True. Qed.

(** With an identifier, the call stores a record that does not depend on
    the table, and that record satisfies the invariant. *)
Lemma processOperation_insert path method operation :
  openapi3.OperationID operation ≠ "" →
  ∃ info,
    WellFormedOperation (openapi3.OperationID operation) info ∧
    ∀ operations,
      processOperation path method (Some operation) operations =
      <[openapi3.OperationID operation := info]> operations.
Proof.
  intros Hid.
  pose proof (fallback_summary_nonempty method path).
  destruct (openapi3.RequestBody operation) as [[ref [body|]]|] eqn:Hbody;
    (eexists; split;
     [|intros operations; unfold processOperation;
       rewrite decide_False by done; rewrite Hbody; cbv beta iota zeta;
       reflexivity]);
    (split_and!; simpl;
     [done|done|by case_decide|repeat case_decide; congruence|done]).
Qed.

Lemma recordOf_no_id path method operation :
  openapi3.OperationID operation = "" → recordOf path method operation = None.
Proof.
  intros Hid. unfold recordOf.
  by rewrite processOperation_no_id, lookup_empty.
Qed.

Lemma recordOf_is_Some path method operation :
  openapi3.OperationID operation ≠ "" →
  is_Some (recordOf path method operation).
Proof.
  intros Hid. destruct (processOperation_insert path method _ Hid) as (info & _ & Heq).
  unfold recordOf. rewrite Heq, lookup_insert_eq. eauto.
Qed.

(** A call either leaves the table alone or stores its record under the
    identifier of the definition. *)
Lemma processOperation_recordOf path method operation operations :
  processOperation path method (Some operation) operations =
  match recordOf path method operation with
  | Some info => <[openapi3.OperationID operation := info]> operations
  | None => operations
  end.
Proof.
  destruct (decide (openapi3.OperationID operation = "")) as [Hid|Hid].
  - by rewrite recordOf_no_id, processOperation_no_id.
  - destruct (processOperation_insert path method _ Hid) as (info & _ & Heq).
    unfold recordOf. by rewrite !Heq, lookup_insert_eq.
Qed.

Lemma recordOf_well_formed path method operation info :
  recordOf path method operation = Some info →
  WellFormedOperation (openapi3.OperationID operation) info.
Proof.
  destruct (decide (openapi3.OperationID operation = "")) as [Hid|Hid].
  { by rewrite recordOf_no_id. }
  destruct (processOperation_insert path method _ Hid) as (info' & Hwf & Heq).
  unfold recordOf. rewrite Heq, lookup_insert_eq. by intros [= <-].
Qed.

Lemma processOperation_invariant path method operation operations :
  TableInvariant operations →
  TableInvariant (processOperation path method operation operations).
Proof.
  intros Hinv. destruct operation as [operation|]; [|done].
  rewrite processOperation_recordOf.
  destruct (recordOf path method operation) as [info|] eqn:Hrec; [|done].
  apply map_Forall_insert_2; [|done]. by eapply recordOf_well_formed.
Qed.

Lemma processPathItem_invariant path pathItem operations :
  TableInvariant operations →
  TableInvariant (processPathItem path pathItem operations).
Proof.
  intros Hinv. unfold processPathItem.
  by repeat apply processOperation_invariant.
Qed.

Lemma extractOperations_invariant doc paths :
  TableInvariant (extractOperations doc paths).
Proof.
  unfold extractOperations.
  assert (TableInvariant (∅ : OperationTable)) as Hinv by apply map_Forall_empty.
  revert Hinv. generalize (∅ : OperationTable).
  induction paths as [|path paths IH]; intros operations Hinv; simpl; [done|].
  apply IH. destruct (openapi3.Find doc path); [|done].
  by apply processPathItem_invariant.
Qed.

(** The stored record, field by field. *)
Lemma processOperation_lookup path method operation operations :
  openapi3.OperationID operation ≠ "" →
  processOperation path method (Some operation) operations
    !! openapi3.OperationID operation =
  Some {| ID := openapi3.OperationID operation;
          Summary :=
            if decide (openapi3.Summary operation = "")
            then method +:+ " " +:+ path
            else openapi3.Summary operation;
          Description :=
            if decide (openapi3.Description operation = "")
            then (if decide (openapi3.Summary operation = "")
                  then method +:+ " " +:+ path
                  else openapi3.Summary operation)
            else openapi3.Description operation;
          ParameterType :=
            openapi3.OperationID operation +:+
              (if carriesRequestBody operation
               then "JSONRequestBody" else "Params");
          HasRequestBody := carriesRequestBody operation |}.
Proof.
  intros Hid. unfold processOperation, carriesRequestBody.
  rewrite decide_False by done.
  destruct (openapi3.RequestBody operation) as [[ref [body|]]|];
    cbn [openapi3.Value]; cbv beta iota zeta; by rewrite lookup_insert_eq.
Qed.

(** C2. Body/parameter fork: an operation with a non-null request body is
    stored with [HasRequestBody = true] and parameter type
    [<id>JSONRequestBody], and the REST call of its handler receives
    [arguments] itself; an operation without one is stored with
    [HasRequestBody = false] and [<id>Params], and the call receives
    [&arguments]. *)
Theorem C2_body_parameter_fork path method operation operations :
  openapi3.OperationID operation ≠ "" →
  ∃ info,
    processOperation path method (Some operation) operations
      !! openapi3.OperationID operation = Some info ∧
    if carriesRequestBody operation then
      HasRequestBody info = true ∧
      ParameterType info = openapi3.OperationID operation +:+ "JSONRequestBody" ∧
      callArgument (handlerBlock info) = Some (Stmt [Id "arguments"])
    else
      HasRequestBody info = false ∧
      ParameterType info = openapi3.OperationID operation +:+ "Params" ∧
      callArgument (handlerBlock info) = Some (Stmt [Op "&"; Id "arguments"]).
Proof.
  intros Hid. eexists. split; [by apply processOperation_lookup|].
  unfold handlerBlock, callArgument, paramExpr. simpl.
  by destruct (carriesRequestBody operation).
Qed.

Lemma C2_body_parameter_fork_witness :
  openapi3.OperationID Example.addBook ≠ "" ∧
  ∃ info,
    processOperation "/books" "POST" (Some Example.addBook) ∅ !! "AddBook"
      = Some info ∧
    HasRequestBody info = true ∧
    ParameterType info = "AddBookJSONRequestBody" ∧
    callArgument (handlerBlock info) = Some (Stmt [Id "arguments"]).
Proof.
  split; [discriminate|].
  apply (C2_body_parameter_fork "/books" "POST" Example.addBook ∅).
  discriminate.
Defined.

(** C3. Fallback text: a definition without summary text is stored with the
    summary ["<METHOD> <path>"], and a definition without description text
    is stored with a description equal to its stored summary. *)
Theorem C3_fallback_text path method operation operations :
  openapi3.OperationID operation ≠ "" →
  ∃ info,
    processOperation path method (Some operation) operations
      !! openapi3.OperationID operation = Some info ∧
    (openapi3.Summary operation = "" →
     Summary info = method +:+ " " +:+ path) ∧
    (openapi3.Description operation = "" →
     Description info = Summary info).
Proof.
  intros Hid. eexists. split; [by apply processOperation_lookup|].
  simpl. split; intros Hempty; by rewrite decide_True by done.
Qed.

Lemma C3_fallback_text_witness :
  openapi3.OperationID Example.listBooks ≠ "" ∧
  ∃ info,
    processOperation "/books" "GET" (Some Example.listBooks) ∅ !! "ListBooks"
      = Some info ∧
    (openapi3.Summary Example.listBooks = "" → Summary info = "GET /books") ∧
    (openapi3.Description Example.listBooks = "" →
     Description info = Summary info).
Proof.
  split; [discriminate|].
  apply (C3_fallback_text "/books" "GET" Example.listBooks ∅).
  discriminate.
Defined.

(** C10. Invariant of the Operation Table: every stored Operation has a
    non-empty identifier equal to its key, a non-empty summary, a non-empty
    description, and the parameter type [ID ++ "JSONRequestBody"] or
    [ID ++ "Params"] according to [HasRequestBody]. Every call of
    [processOperation] keeps it, and the extracted table has it. *)
Theorem C10_table_invariant doc paths path method operation operations :
  TableInvariant operations →
  TableInvariant (processOperation path method operation operations) ∧
  TableInvariant (extractOperations doc paths).
Proof.
  intros Hinv. split.
  - by apply processOperation_invariant.
  - apply extractOperations_invariant.
Qed.

Lemma C10_table_invariant_witness :
  TableInvariant (∅ : OperationTable) ∧
  TableInvariant (processOperation "/books" "GET" (Some Example.listBooks) ∅) ∧
  TableInvariant (extractOperations Example.doc ["/books"]).
Proof.
  split; [apply map_Forall_empty|].
  apply (C10_table_invariant Example.doc ["/books"] "/books" "GET"
           (Some Example.listBooks) ∅).
  apply map_Forall_empty.
Defined.

(** ** The extraction loop as a sequence of calls *)

Lemma processPathItem_slots path pathItem operations :
  processPathItem path pathItem operations =
  foldl (λ operations slot, processOperation path slot.1 slot.2 operations)
        operations (inspectedSlots pathItem).
Proof. reflexivity. Qed.

Lemma processPathItem_calls path pathItem operations :
  processPathItem path pathItem operations =
  foldl applyCall operations (callsOfPathItem path pathItem).
Proof.
  unfold processPathItem, callsOfPathItem, inspectedSlots.
  destruct pathItem as [c d g h o pa po pu t]; simpl.
  destruct g, po, pu, d, pa, h, o; reflexivity.
Qed.

Lemma extractOperations_calls doc paths :
  extractOperations doc paths = foldl applyCall ∅ (callsOf doc paths).
Proof.
  unfold extractOperations, callsOf. generalize (∅ : OperationTable).
  induction paths as [|path paths IH]; intros operations; [done|].
  rewrite bind_cons, foldl_app. simpl. rewrite IH.
  destruct (openapi3.Find doc path); [|done].
  by rewrite processPathItem_calls.
Qed.

(** What one call does to the entry of a non-empty identifier. *)
Lemma applyCall_lookup operations c id :
  id ≠ "" →
  applyCall operations c !! id =
  if decide (openapi3.OperationID (callOperation c) = id)
  then recordOfCall c else operations !! id.
Proof.
  intros Hid. unfold applyCall, recordOfCall.
  rewrite processOperation_recordOf. case_decide as Heq.
  - subst id. destruct (recordOf_is_Some (callPath c) (callMethod c) _ Hid)
      as [info ->]. by rewrite lookup_insert_eq.
  - destruct (recordOf _ _ _); [|done]. by rewrite lookup_insert_ne.
Qed.

(** Last write wins: after a sequence of calls, the entry of an identifier
    is the record of the last call that carries it. *)
Lemma foldl_applyCall_lookup calls operations id :
  id ≠ "" →
  foldl applyCall operations calls !! id =
  match last (callsWithID id calls) with
  | Some c => recordOfCall c
  | None => operations !! id
  end.
Proof.
  intros Hid. unfold callsWithID.
  induction calls as [|c calls IH] using rev_ind; [done|].
  rewrite foldl_app, filter_app. simpl. rewrite applyCall_lookup by done.
  rewrite filter_cons, filter_nil. case_decide.
  - by rewrite last_snoc.
  - by rewrite app_nil_r.
Qed.

Lemma elem_of_callsOfPathItem path pathItem c :
  c ∈ callsOfPathItem path pathItem ↔
  callPath c = path ∧
  (callMethod c, Some (callOperation c)) ∈ inspectedSlots pathItem.
Proof.
  unfold callsOfPathItem. rewrite list_elem_of_omap. split.
  - intros ([method [operation|]] & Hin & Hc); simplify_eq/=. done.
  - intros [<- Hin]. eexists; split; [done|]. by destruct c.
Qed.

Lemma elem_of_callsOf doc paths c :
  c ∈ callsOf doc paths ↔
  callPath c ∈ paths ∧
  ∃ pathItem, openapi3.Paths doc !! callPath c = Some pathItem ∧
    (callMethod c, Some (callOperation c)) ∈ inspectedSlots pathItem.
Proof.
  unfold callsOf. rewrite list_elem_of_bind. unfold openapi3.Find. split.
  - intros (path & Hc & Hpath).
    destruct (openapi3.Paths doc !! path) as [pathItem|] eqn:Hitem;
      [|by apply not_elem_of_nil in Hc].
    apply elem_of_callsOfPathItem in Hc as [<- Hin]. eauto.
  - intros (Hpath & pathItem & Hitem & Hin).
    exists (callPath c). split; [|done]. rewrite Hitem.
    by apply elem_of_callsOfPathItem.
Qed.

(** The identifiers of the table are the non-empty identifiers that the
    visited path items define under the seven inspected methods. *)
Lemma extractOperations_is_Some doc paths id :
  is_Some (extractOperations doc paths !! id) ↔
  id ≠ "" ∧ ∃ c, c ∈ callsOf doc paths ∧
               openapi3.OperationID (callOperation c) = id.
Proof.
  split.
  - intros [info Hinfo].
    assert (id ≠ "") as Hid.
    { by destruct (extractOperations_invariant doc paths id info Hinfo)
        as (_ & ? & _). }
    split; [done|].
    rewrite extractOperations_calls, foldl_applyCall_lookup in Hinfo by done.
    destruct (last (callsWithID id (callsOf doc paths))) as [c|] eqn:Hlast;
      [|by rewrite lookup_empty in Hinfo].
    apply last_Some_elem_of, list_elem_of_filter in Hlast as [? ?]. eauto.
  - intros (Hid & c & Hc & Hcid).
    rewrite extractOperations_calls, foldl_applyCall_lookup by done.
    assert (c ∈ callsWithID id (callsOf doc paths)) as Hin.
    { by apply list_elem_of_filter. }
    destruct (last (callsWithID id (callsOf doc paths))) as [c'|] eqn:Hlast.
    + apply last_Some_elem_of, list_elem_of_filter in Hlast as [Hc' _].
      unfold recordOfCall. apply recordOf_is_Some. congruence.
    + apply last_None in Hlast. rewrite Hlast in Hin.
      by apply not_elem_of_nil in Hin.
Qed.

Lemma extractOperations_defines doc paths id :
  paths ≡ₚ (map_to_list (openapi3.Paths doc)).*1 →
  is_Some (extractOperations doc paths !! id) ↔
  id ≠ "" ∧ definesOperation doc id.
Proof.
  intros Hrange. rewrite extractOperations_is_Some.
  apply and_iff_compat_l. unfold definesOperation. split.
  - intros (c & Hc & Hid). apply elem_of_callsOf in Hc as (_ & pathItem & ? & ?).
    by exists (callPath c), pathItem, (callMethod c), (callOperation c).
  - intros (path & pathItem & method & operation & Hitem & Hin & Hid).
    exists (mkProcessCall path method operation). split; [|done].
    apply elem_of_callsOf. simpl. split; [|eauto].
    rewrite Hrange. apply list_elem_of_fmap. exists (path, pathItem).
    split; [done|]. by apply elem_of_map_to_list.
Qed.

(** ** Counting names *)

Lemma occurrences_Permutation id names names' :
  names ≡ₚ names' → occurrences id names = occurrences id names'.
Proof. intros Hperm. unfold occurrences. by rewrite Hperm. Qed.

Lemma occurrences_not_elem_of id names :
  id ∉ names → occurrences id names = 0%nat.
Proof.
  unfold occurrences. induction names as [|n names IH]; [done|].
  rewrite not_elem_of_cons. intros [Hne Hnotin].
  rewrite filter_cons, decide_False by done. by apply IH.
Qed.

Lemma occurrences_NoDup id names :
  NoDup names →
  occurrences id names = if decide (id ∈ names) then 1%nat else 0%nat.
Proof.
  intros Hnodup. case_decide as Hin; [|by apply occurrences_not_elem_of].
  unfold occurrences. induction Hnodup as [|n names Hnotin Hnodup IH].
  { by apply not_elem_of_nil in Hin. }
  rewrite filter_cons. apply elem_of_cons in Hin as [->|Hin].
  - rewrite decide_True by done. simpl.
    pose proof (occurrences_not_elem_of n names Hnotin) as Hzero.
    unfold occurrences in Hzero. by rewrite Hzero.
  - rewrite decide_False; [by apply IH|]. by intros ->.
Qed.

(** Under the invariant, the identifiers of the stored records are the
    keys of the table. *)
Lemma table_identifiers (operations : OperationTable) :
  TableInvariant operations →
  ID <$> (map_to_list operations).*2 = (map_to_list operations).*1.
Proof.
  intros Hinv. rewrite <-list_fmap_compose. apply list_fmap_ext.
  intros i [key op] Hlookup. simpl.
  apply list_elem_of_lookup_2, elem_of_map_to_list in Hlookup.
  by destruct (Hinv key op Hlookup) as [? _].
Qed.

(** The identifiers yielded by a range over the table: each key once. *)
Lemma range_identifiers (operations : OperationTable) ops id :
  TableInvariant operations →
  ops ≡ₚ (map_to_list operations).*2 →
  occurrences id (ID <$> ops) =
  if decide (is_Some (operations !! id)) then 1%nat else 0%nat.
Proof.
  intros Hinv Hrange.
  rewrite (occurrences_Permutation id _ ((map_to_list operations).*1)).
  - rewrite occurrences_NoDup by apply NoDup_fst_map_to_list.
    apply decide_ext. rewrite list_elem_of_fmap. split.
    + intros ([key op] & -> & Hin). apply elem_of_map_to_list in Hin. eauto.
    + intros [op Hop]. exists (id, op). split; [done|].
      by apply elem_of_map_to_list.
  - by rewrite Hrange, table_identifiers.
Qed.

(** C6. Duplicate identifiers: when definitions share a non-empty
    identifier, extraction does not fail; the table holds exactly one
    Operation for the identifier, the record derived from the last such
    definition processed (the last call [c] that carries the identifier). *)
Theorem C6_last_write_wins doc paths id c :
  id ≠ "" →
  last (callsWithID id (callsOf doc paths)) = Some c →
  ∃ info,
    recordOfCall c = Some info ∧
    extractOperations doc paths !! id = Some info ∧
    occurrences id (ID <$> (map_to_list (extractOperations doc paths)).*2)
      = 1%nat ∧
    size (extractOperations doc paths) ≠ 0%nat.
Proof.
  intros Hid Hlast.
  assert (extractOperations doc paths !! id = recordOfCall c) as Hlookup.
  { by rewrite extractOperations_calls, foldl_applyCall_lookup, Hlast. }
  destruct (recordOf_is_Some (callPath c) (callMethod c) (callOperation c))
    as [info Hinfo].
  { apply last_Some_elem_of, list_elem_of_filter in Hlast as [-> _]. done. }
  exists info. split; [done|].
  assert (extractOperations doc paths !! id = Some info) as Hsome.
  { by rewrite Hlookup. }
  split_and!; [done| |].
  - rewrite (range_identifiers (extractOperations doc paths));
      [|apply extractOperations_invariant|done].
    by rewrite decide_True by eauto.
  - apply map_size_non_empty_iff. intros Hempty.
    by rewrite Hempty, lookup_empty in Hsome.
Qed.

Lemma C6_last_write_wins_witness :
  "Books" ≠ "" ∧
  callsWithID "Books" (callsOf Duplicate.doc ["/books"]) =
    [ mkProcessCall "/books" "GET" Duplicate.getBooks;
      mkProcessCall "/books" "POST" Duplicate.postBooks ] ∧
  ∃ info,
    recordOfCall (mkProcessCall "/books" "POST" Duplicate.postBooks)
      = Some info ∧
    extractOperations Duplicate.doc ["/books"] !! "Books" = Some info ∧
    occurrences "Books"
      (ID <$> (map_to_list (extractOperations Duplicate.doc ["/books"])).*2)
      = 1%nat ∧
    size (extractOperations Duplicate.doc ["/books"]) ≠ 0%nat.
Proof.
  split; [discriminate|]. split; [vm_compute; reflexivity|].
  apply (C6_last_write_wins Duplicate.doc ["/books"] "Books"
           (mkProcessCall "/books" "POST" Duplicate.postBooks)).
  - discriminate.
  - vm_compute. reflexivity.
Defined.


(** ** The synthesized statement list *)

Lemma appendRegistrations_bind cli body ops :
  appendRegistrations cli body ops = body ++ (ops ≫= registerTool cli).
Proof.
  unfold appendRegistrations. revert body.
  induction ops as [|op ops IH]; intros body; simpl.
  - by rewrite app_nil_r.
  - by rewrite IH, <-app_assoc.
Qed.

Lemma mainBody_shape cli ops :
  mainBody cli ops =
  mainBodyHead cli ++ (ops ≫= registerTool cli) ++ mainBodyTail.
Proof.
  unfold mainBody. by rewrite appendRegistrations_bind, <-app_assoc.
Qed.

Lemma mainOf_synthesize cli ops : mainOf (synthesize cli ops) = mainBody cli ops.
Proof. reflexivity. Qed.

Lemma registeredTools_registrations cli ops :
  registeredTools (ops ≫= registerTool cli) = ID <$> ops.
Proof.
  unfold registeredTools. induction ops as [|op ops IH]; [done|].
  rewrite bind_cons, omap_app, IH. reflexivity.
Qed.

(** The tools registered by the synthesized program are the identifiers of
    the Operations, in the order the range statement yielded them. *)
Lemma registeredTools_mainBody cli ops :
  registeredTools (mainBody cli ops) = ID <$> ops.
Proof.
  rewrite mainBody_shape. unfold registeredTools. rewrite !omap_app.
  fold (registeredTools (ops ≫= registerTool cli)).
  rewrite registeredTools_registrations. simpl. by rewrite app_nil_r.
Qed.

(** ** The run of the generator *)

Lemma loadOpenAPISpec_saves_nothing rt specPath :
  savedFiles (events (loadOpenAPISpec rt specPath)) = [].
Proof.
  unfold loadOpenAPISpec.
  destruct (url_Parse rt specPath) as [parsedURL|?]; simpl.
  - case_bool_decide; simpl.
    + destruct (http_Get rt specPath) as [resp|?]; simpl; [|done].
      case_decide; simpl; [done|].
      destruct (Body resp) as [content|?]; simpl; [|done].
      destruct (LoadFromData rt content) as [doc|?]; simpl; [|done].
      by destruct (Validate rt doc).
    + destruct (LoadFromFile rt specPath) as [doc|?]; simpl; [|done].
      by destruct (Validate rt doc).
  - destruct (LoadFromFile rt specPath) as [doc|?]; simpl; [|done].
    by destruct (Validate rt doc).
Qed.

Lemma generateMCPServer_load_failed rt cli err :
  outcome (loadOpenAPISpec rt (Spec cli)) = Failed err →
  generateMCPServer rt cli = (events (loadOpenAPISpec rt (Spec cli)), Failed err).
Proof.
  unfold generateMCPServer, outcome, events.
  destruct (loadOpenAPISpec rt (Spec cli)) as [out [doc|?]]; simpl; congruence.
Qed.

Lemma generateMCPServer_empty rt cli doc :
  loaded rt cli doc → tableOf rt doc = ∅ →
  generateMCPServer rt cli =
  (events (loadOpenAPISpec rt (Spec cli)),
   Failed "no valid operations found in the OpenAPI spec").
Proof.
  unfold loaded, generateMCPServer, outcome, events, tableOf.
  destruct (loadOpenAPISpec rt (Spec cli)) as [out [doc'|?]]; simpl; [|done].
  intros [= ->] Hempty. rewrite Hempty.
  unfold mbind, M_bind, bind. simpl.
  rewrite decide_True by by rewrite map_size_empty_iff.
  simpl. by rewrite app_nil_r.
Qed.

Lemma generateMCPServer_saves rt cli doc :
  loaded rt cli doc → tableOf rt doc ≠ ∅ →
  savedFiles (events (generateMCPServer rt cli))
    = [(generatedFile rt cli doc, Output cli)] ∧
  outcome (generateMCPServer rt cli) =
    match Save rt (generatedFile rt cli doc) (Output cli) with
    | Some err => Failed err
    | None => Ok tt
    end.
Proof.
  intros Hloaded Hnonempty.
  pose proof (loadOpenAPISpec_saves_nothing rt (Spec cli)) as Hnone.
  revert Hloaded Hnone.
  unfold loaded, generateMCPServer, outcome, events, generatedFile, tableOf in *.
  destruct (loadOpenAPISpec rt (Spec cli)) as [out [doc'|?]]; simpl; [|done].
  intros [= ->] Hnone.
  unfold mbind, M_bind, bind. simpl.
  rewrite decide_False by by rewrite map_size_empty_iff.
  simpl. unfold save, mbind, M_bind, bind. simpl.
  destruct (Save rt _ _); simpl;
    unfold savedFiles in *; rewrite !omap_app, Hnone; done.
Qed.

(** A description without a usable operation gives an empty table, however
    its paths are visited. *)
Lemma extractOperations_unusable doc paths :
  (∀ id, definesOperation doc id → id = "") →
  extractOperations doc paths = ∅.
Proof.
  intros Hunusable. apply map_empty. intros id.
  apply eq_None_not_Some.
  intros (Hid & c & Hc & Hcid)%extractOperations_is_Some.
  apply Hid, Hunusable.
  apply elem_of_callsOf in Hc as (_ & pathItem & ? & ?).
  by exists (callPath c), pathItem, (callMethod c), (callOperation c).
Qed.

(** C5. Empty-input rejection: when the Operation Table is empty after all
    paths have been processed, the run returns the error "no valid
    operations found in the OpenAPI spec" and hands no file to [Save]. *)
Theorem C5_empty_table_rejected rt cli doc :
  loaded rt cli doc →
  tableOf rt doc = ∅ →
  outcome (generateMCPServer rt cli)
    = Failed "no valid operations found in the OpenAPI spec" ∧
  savedFiles (events (generateMCPServer rt cli)) = [].
Proof.
  intros Hloaded Hempty.
  rewrite (generateMCPServer_empty rt cli doc) by done.
  split; [done|]. apply loadOpenAPISpec_saves_nothing.
Qed.

Lemma C5_empty_table_rejected_witness :
  loaded Example.rtUnusable Example.cli Example.unusableDoc ∧
  tableOf Example.rtUnusable Example.unusableDoc = ∅ ∧
  outcome (generateMCPServer Example.rtUnusable Example.cli)
    = Failed "no valid operations found in the OpenAPI spec" ∧
  savedFiles (events (generateMCPServer Example.rtUnusable Example.cli)) = [].
Proof.
  split; [reflexivity|]. split; [vm_compute; reflexivity|].
  apply (C5_empty_table_rejected Example.rtUnusable Example.cli
           Example.unusableDoc).
  - reflexivity.
  - vm_compute. reflexivity.
Defined.

(** The identifiers registered by the file of a run. *)
Lemma generatedFile_tools rt cli doc id :
  GoRange rt →
  occurrences id (registeredTools (mainOf (generatedFile rt cli doc))) =
  if decide (is_Some (tableOf rt doc !! id)) then 1%nat else 0%nat.
Proof.
  intros [_ Hrange]. unfold generatedFile.
  rewrite mainOf_synthesize, registeredTools_mainBody.
  apply range_identifiers; [apply extractOperations_invariant|apply Hrange].
Qed.

(** C4. Completeness: for every non-empty operation identifier that the
    description defines under one of the seven methods, the synthesized
    program contains exactly one registration statement, however often the
    identifier is defined; an empty identifier is never registered, and
    nothing is registered that the description does not define. *)
Theorem C4_one_registration_per_identifier rt cli doc :
  GoRange rt →
  loaded rt cli doc →
  (∀ id, id ≠ "" → definesOperation doc id →
     ∃ f, savedFiles (events (generateMCPServer rt cli)) = [(f, Output cli)] ∧
          occurrences id (registeredTools (mainOf f)) = 1%nat) ∧
  (∀ f path id, (f, path) ∈ savedFiles (events (generateMCPServer rt cli)) →
     (id = "" ∨ ¬ definesOperation doc id) →
     occurrences id (registeredTools (mainOf f)) = 0%nat).
Proof.
  intros Hrange Hloaded.
  assert (∀ id, is_Some (tableOf rt doc !! id) ↔
                id ≠ "" ∧ definesOperation doc id) as Hdom.
  { intros id. apply extractOperations_defines, Hrange. }
  split.
  - intros id Hid Hdef.
    assert (is_Some (tableOf rt doc !! id)) as Hsome by by apply Hdom.
    assert (tableOf rt doc ≠ ∅) as Hnonempty.
    { intros Hempty. rewrite Hempty, lookup_empty in Hsome.
      by apply is_Some_None in Hsome. }
    destruct (generateMCPServer_saves rt cli doc) as [Hsaved _]; [done..|].
    exists (generatedFile rt cli doc). split; [done|].
    rewrite generatedFile_tools by done. by rewrite decide_True.
  - intros f path id Hin Hnot.
    destruct (decide (tableOf rt doc = ∅)) as [Hempty|Hnonempty].
    { rewrite (generateMCPServer_empty rt cli doc) in Hin by done.
      unfold events in Hin. simpl in Hin.
      pose proof (loadOpenAPISpec_saves_nothing rt (Spec cli)) as Hnone.
      unfold events in Hnone. rewrite Hnone in Hin.
      by apply not_elem_of_nil in Hin. }
    destruct (generateMCPServer_saves rt cli doc) as [Hsaved _]; [done..|].
    rewrite Hsaved in Hin. apply list_elem_of_singleton in Hin as [= -> ->].
    rewrite generatedFile_tools by done.
    rewrite decide_False; [done|]. rewrite Hdom. tauto.
Qed.

Lemma GoRange_world doc order :
  (∀ A (l : list A), order A l ≡ₚ l) → GoRange (Example.world doc order).
Proof. intros Horder. split; intros m; apply Horder. Qed.

Lemma C4_one_registration_per_identifier_witness :
  GoRange Example.rt ∧
  loaded Example.rt Example.cli Example.doc ∧
  (∀ id, id ≠ "" → definesOperation Example.doc id →
     ∃ f, savedFiles (events (generateMCPServer Example.rt Example.cli))
            = [(f, Output Example.cli)] ∧
          occurrences id (registeredTools (mainOf f)) = 1%nat) ∧
  (∀ f path id,
     (f, path) ∈ savedFiles (events (generateMCPServer Example.rt Example.cli)) →
     (id = "" ∨ ¬ definesOperation Example.doc id) →
     occurrences id (registeredTools (mainOf f)) = 0%nat).
Proof.
  assert (GoRange Example.rt) as Hrange by by apply GoRange_world.
  split; [done|]. split; [reflexivity|].
  apply (C4_one_registration_per_identifier Example.rt Example.cli Example.doc).
  - exact Hrange.
  - reflexivity.
Defined.

(** ** Determinism *)

Lemma bind_ext {A B} (m1 m2 : M A) (k1 k2 : A → M B) :
  m1 = m2 → (∀ a, k1 a = k2 a) → m1 ≫= k1 = m2 ≫= k2.
Proof.
  intros -> Hk. unfold mbind, M_bind, bind.
  destruct m2 as [out [a|err]]; [|done]. by rewrite Hk.
Qed.

Lemma loadOpenAPISpec_sameWorld rt1 rt2 specPath :
  sameWorld rt1 rt2 →
  loadOpenAPISpec rt1 specPath = loadOpenAPISpec rt2 specPath.
Proof.
  intros (Hparse & Hget & Hdata & Hfile & Hvalidate & _).
  unfold loadOpenAPISpec. rewrite Hparse. apply bind_ext.
  - destruct (match url_Parse rt2 specPath with
              | Ok parsedURL => _ | Failed _ => _ end).
    + apply bind_ext; [done|intros _]. rewrite Hget.
      apply bind_ext; [done|intros resp]. case_decide; [done|].
      apply bind_ext; [done|intros content]. by rewrite Hdata.
    + by rewrite Hfile.
  - intros doc. by rewrite Hvalidate.
Qed.

(** C1, as the code has it. Two runs on the same description, configuration
    and world produce the same events and the same result when their two
    range statements visit the maps in the same order; the registration
    statements of the synthesized program follow the order in which the
    range over the Operation Table yields the Operations, and no other
    order is imposed. *)
Theorem C1_output_follows_range_order rt1 rt2 cli :
  sameWorld rt1 rt2 →
  sameRangeOrder rt1 rt2 →
  generateMCPServer rt1 cli = generateMCPServer rt2 cli ∧
  ∀ doc f path,
    loaded rt1 cli doc →
    (f, path) ∈ savedFiles (events (generateMCPServer rt1 cli)) →
    mainOf f =
      mainBodyHead cli
      ++ (rangeOperations rt1 (tableOf rt1 doc) ≫= registerTool cli)
      ++ mainBodyTail ∧
    registeredTools (mainOf f) = ID <$> rangeOperations rt1 (tableOf rt1 doc).
Proof.
  intros Hworld [Hpaths Hops]. split.
  - unfold generateMCPServer.
    apply bind_ext; [by apply loadOpenAPISpec_sameWorld|intros doc].
    rewrite Hpaths. case_decide; [done|].
    apply bind_ext; [done|intros _]. unfold save. rewrite Hops.
    apply bind_ext; [done|intros _].
    destruct Hworld as (_ & _ & _ & _ & _ & Hsave). by rewrite Hsave.
  - intros doc f path Hloaded Hin.
    destruct (decide (tableOf rt1 doc = ∅)) as [Hempty|Hnonempty].
    { rewrite (generateMCPServer_empty rt1 cli doc) in Hin by done.
      pose proof (loadOpenAPISpec_saves_nothing rt1 (Spec cli)) as Hnone.
      unfold events in *. simpl in Hin. rewrite Hnone in Hin.
      by apply not_elem_of_nil in Hin. }
    destruct (generateMCPServer_saves rt1 cli doc) as [Hsaved _]; [done..|].
    rewrite Hsaved in Hin. apply list_elem_of_singleton in Hin as [= -> ->].
    unfold generatedFile. rewrite mainOf_synthesize.
    split; [apply mainBody_shape|apply registeredTools_mainBody].
Qed.

Lemma C1_output_follows_range_order_witness :
  sameWorld Example.rt Example.rtReversedTwice ∧
  sameRangeOrder Example.rt Example.rtReversedTwice ∧
  generateMCPServer Example.rt Example.cli
    = generateMCPServer Example.rtReversedTwice Example.cli ∧
  ∀ doc f path,
    loaded Example.rt Example.cli doc →
    (f, path) ∈ savedFiles (events (generateMCPServer Example.rt Example.cli)) →
    mainOf f =
      mainBodyHead Example.cli
      ++ (rangeOperations Example.rt (tableOf Example.rt doc)
            ≫= registerTool Example.cli)
      ++ mainBodyTail ∧
    registeredTools (mainOf f)
      = ID <$> rangeOperations Example.rt (tableOf Example.rt doc).
Proof.
  assert (sameRangeOrder Example.rt Example.rtReversedTwice) as Horder.
  { split; intros m; simpl; by rewrite reverse_involutive. }
  split; [by repeat split|]. split; [exact Horder|].
  apply (C1_output_follows_range_order Example.rt Example.rtReversedTwice
           Example.cli).
  - by repeat split.
  - exact Horder.
Defined.

(** C1 does not hold as the design document states it: in the same world, on the same description and
    configuration, two runs whose range over the Operation Table yields the
    two Operations in opposite orders (both orders are ones Go may choose)
    hand different files to [Save]; the registration statements come out in
    the order of the range, here [ListBooks] before [AddBook] in one run and
    after it in the other. *)
Lemma C1_determinism_counterexample :
  GoRange Example.rt ∧ GoRange Example.rtReversed ∧
  sameWorld Example.rt Example.rtReversed ∧
  registeredTools <$> (mainOf ∘ fst <$>
      savedFiles (events (generateMCPServer Example.rt Example.cli)))
    = [["AddBook"; "ListBooks"]] ∧
  registeredTools <$> (mainOf ∘ fst <$>
      savedFiles (events (generateMCPServer Example.rtReversed Example.cli)))
    = [["ListBooks"; "AddBook"]] ∧
  generateMCPServer Example.rt Example.cli
    ≠ generateMCPServer Example.rtReversed Example.cli.
Proof.
  assert (registeredTools <$> (mainOf ∘ fst <$>
      savedFiles (events (generateMCPServer Example.rt Example.cli)))
    = [["AddBook"; "ListBooks"]]) as Hfirst by (vm_compute; reflexivity).
  assert (registeredTools <$> (mainOf ∘ fst <$>
      savedFiles (events (generateMCPServer Example.rtReversed Example.cli)))
    = [["ListBooks"; "AddBook"]]) as Hsecond by (vm_compute; reflexivity).
  split_and!; [ by apply GoRange_world
              | apply GoRange_world; intros; apply reverse_Permutation
              | by repeat split | done | done | ].
  intros Heq. rewrite Heq, Hsecond in Hfirst. discriminate Hfirst.
Qed.

(** ** Generated symbol names *)

Lemma list_ascii_of_string_app (s t : string) :
  String.list_ascii_of_string (s +:+ t)
  = String.list_ascii_of_string s ++ String.list_ascii_of_string t.
Proof. induction s as [|c s IH]; simpl; [done|]. by rewrite IH. Qed.

Lemma list_ascii_of_string_inj (s t : string) :
  String.list_ascii_of_string s = String.list_ascii_of_string t → s = t.
Proof.
  intros Heq.
  by rewrite <-(String.string_of_list_ascii_of_string s),
             <-(String.string_of_list_ascii_of_string t), Heq.
Qed.

Lemma append_inj_suffix (s1 s2 t : string) : s1 +:+ t = s2 +:+ t → s1 = s2.
Proof.
  intros Heq. apply list_ascii_of_string_inj.
  apply (f_equal String.list_ascii_of_string) in Heq.
  rewrite !list_ascii_of_string_app in Heq. by apply app_inv_tail in Heq.
Qed.

Lemma parameter_suffixes_differ (s1 s2 : string) :
  s1 +:+ "JSONRequestBody" ≠ s2 +:+ "Params".
Proof.
  intros Heq. apply (f_equal (last ∘ String.list_ascii_of_string)) in Heq.
  simpl in Heq. rewrite !list_ascii_of_string_app, !last_app in Heq.
  discriminate.
Qed.

(** Distinct Operations of a table never share a generated symbol: neither
    the client method nor the parameter type. *)
Lemma table_symbols_distinct (operations : OperationTable) k1 k2 op1 op2 :
  TableInvariant operations →
  operations !! k1 = Some op1 → operations !! k2 = Some op2 → k1 ≠ k2 →
  clientMethod op1 ≠ clientMethod op2 ∧ ParameterType op1 ≠ ParameterType op2.
Proof.
  intros Hinv H1 H2 Hne.
  destruct (Hinv k1 op1 H1) as (Hid1 & _ & _ & _ & Htype1).
  destruct (Hinv k2 op2 H2) as (Hid2 & _ & _ & _ & Htype2).
  assert (ID op1 ≠ ID op2) as Hids by congruence.
  split.
  - unfold clientMethod. by intros ?%append_inj_suffix.
  - rewrite Htype1, Htype2.
    destruct (HasRequestBody op1), (HasRequestBody op2).
    + by intros ?%append_inj_suffix.
    + apply parameter_suffixes_differ.
    + intros Heq. by apply (parameter_suffixes_differ (ID op2) (ID op1)).
    + by intros ?%append_inj_suffix.
Qed.

(** C7, as the code has it. The generator checks neither symbol collisions
    nor the fields of the configuration. A run hands no file to [Save]
    exactly when the loader fails or the Operation Table is empty, whatever
    the other configuration fields hold; and two distinct Operations of a
    table never resolve to the same client method or parameter type, so the
    table cannot hold a collision. *)
Theorem C7_no_synthesis_checks rt cli :
  (savedFiles (events (generateMCPServer rt cli)) = [] ↔
   (∃ err, outcome (loadOpenAPISpec rt (Spec cli)) = Failed err) ∨
   (∃ doc, loaded rt cli doc ∧ tableOf rt doc = ∅)) ∧
  (∀ doc, loaded rt cli doc → tableOf rt doc ≠ ∅ →
     savedFiles (events (generateMCPServer rt cli))
       = [(generatedFile rt cli doc, Output cli)]) ∧
  (∀ doc k1 k2 op1 op2,
     tableOf rt doc !! k1 = Some op1 → tableOf rt doc !! k2 = Some op2 →
     k1 ≠ k2 →
     clientMethod op1 ≠ clientMethod op2 ∧
     ParameterType op1 ≠ ParameterType op2).
Proof.
  split_and!.
  - destruct (outcome (loadOpenAPISpec rt (Spec cli))) as [doc|err] eqn:Hload.
    + destruct (decide (tableOf rt doc = ∅)) as [Hempty|Hnonempty].
      * split; [eauto|]. intros _.
        rewrite (generateMCPServer_empty rt cli doc) by done.
        apply loadOpenAPISpec_saves_nothing.
      * destruct (generateMCPServer_saves rt cli doc) as [-> _]; [done..|].
        split; [done|]. intros [[err [=]]|(doc' & Hdoc' & Hempty)].
        unfold loaded in Hdoc'. congruence.
    + split; [eauto|]. intros _.
      rewrite (generateMCPServer_load_failed rt cli err) by done.
      apply loadOpenAPISpec_saves_nothing.
  - intros doc Hloaded Hnonempty.
    by destruct (generateMCPServer_saves rt cli doc) as [-> _].
  - intros doc k1 k2 op1 op2. apply table_symbols_distinct.
    apply extractOperations_invariant.
Qed.

(** C7 does not hold as the design document states it: with the server URL missing from the configuration,
    the run on the example description fails nowhere; it hands a file to
    [Save] and returns no error. *)
Lemma C7_missing_field_counterexample :
  ServerURL Example.cliNoServerURL = "" ∧
  savedFiles (events (generateMCPServer Example.rt Example.cliNoServerURL))
    = [(generatedFile Example.rt Example.cliNoServerURL Example.doc,
        "./generated/main.go")] ∧
  outcome (generateMCPServer Example.rt Example.cliNoServerURL) = Ok tt.
Proof.
  split; [reflexivity|].
  destruct (generateMCPServer_saves Example.rt Example.cliNoServerURL
              Example.doc) as [Hsaved Hout].
  - reflexivity.
  - intros Hempty.
    apply (f_equal (λ t : OperationTable, t !! "AddBook")) in Hempty.
    vm_compute in Hempty. discriminate.
  - split; [exact Hsaved|exact Hout].
Qed.

(** ** Synthesized handlers *)

Lemma append_empty_r (s : string) : s +:+ "" = s.
Proof.
  induction s as [|c s IH]; [done|].
  change (String.String c (s +:+ "") = String.String c s). by rewrite IH.
Qed.

(** A format prefix without percent sign is copied to the result. *)
Lemma Sprintf_prefix (s rest : string) operands :
  noPercent s = true →
  Sprintf (s +:+ rest) operands = String.append s <$> Sprintf rest operands.
Proof.
  induction s as [|c s IH].
  - intros _. change ("" +:+ rest) with rest.
    by destruct (Sprintf rest operands).
  - change (String.String c s +:+ rest) with (String.String c (s +:+ rest)).
    cbn [Sprintf noPercent]. case_decide; [done|]. intros Hs.
    rewrite IH by done. by destruct (Sprintf rest operands).
Qed.

Lemma Sprintf_verb (verb : ascii) operand :
  verb = "v"%char ∨ verb = "s"%char →
  Sprintf (String.String ":" (String.String " " (String.String "%"
             (String.String verb EmptyString)))) [operand]
  = Some (": " +:+ operand).
Proof.
  intros Hverb. cbn [Sprintf].
  rewrite (decide_False (P := (":"%char = "%"%char))) by done.
  rewrite (decide_False (P := (" "%char = "%"%char))) by done.
  rewrite (decide_True (P := ("%"%char = "%"%char))) by done.
  rewrite (decide_False (P := (verb = "%"%char)))
    by (by destruct Hverb as [-> | ->]).
  rewrite decide_True by done.
  cbn [fmap option_fmap option_map]. by rewrite append_empty_r.
Qed.

Lemma Sprintf_error_calling id err :
  noPercent id = true →
  Sprintf ("error calling " +:+ id +:+ ": %v") [err]
  = Some ("error calling " +:+ id +:+ ": " +:+ err).
Proof.
  intros Hid.
  rewrite (Sprintf_prefix "error calling ") by (vm_compute; reflexivity).
  rewrite (Sprintf_prefix id) by done.
  by rewrite (Sprintf_verb "v") by by left.
Qed.

Lemma Sprintf_error_on id status :
  noPercent id = true →
  Sprintf ("error on " +:+ id +:+ ": %s") [status]
  = Some ("error on " +:+ id +:+ ": " +:+ status).
Proof.
  intros Hid.
  rewrite (Sprintf_prefix "error on ") by (vm_compute; reflexivity).
  rewrite (Sprintf_prefix id) by done.
  by rewrite (Sprintf_verb "s") by by right.
Qed.
Lemma execStatements_guard r cond body rest :
  execStatements r (Stmt [If [cond]; Block [body]] :: rest) =
  b ← evalCond r cond;
  if b : bool then evalReturn r body else execStatements r rest.
Proof. reflexivity. Qed.

Lemma evalCond_err r :
  evalCond r (Stmt [Err; Op "!="; Nil])
  = Some (bool_decide (is_Some (errOf r))).
Proof. reflexivity. Qed.

Lemma evalCond_status r n :
  evalCond r (Stmt [Id "resp"; Dot "StatusCode"; Call []; Op "!="; LitInt n])
  = (resp ← respOf r; Some (bool_decide (RespStatusCode resp ≠ n))).
Proof. reflexivity. Qed.

Lemma evalReturn_errorf r format operand :
  evalReturn r
    (Stmt [Return [Stmt [Nil];
                   Stmt [Qual "fmt" "Errorf";
                         Call [Stmt [Lit format]; operand]]]])
  = (text ← evalOperand r operand; ToolError <$> Sprintf format [text]).
Proof. reflexivity. Qed.

Lemma evalOperand_status r :
  evalOperand r (Stmt [Id "resp"; Dot "Status"; Call []])
  = RespStatus <$> respOf r.
Proof. reflexivity. Qed.

Lemma evalReturn_text r :
  evalReturn r
    (Stmt [Return [
      Stmt [Qual "github.com/metoro-io/mcp-golang" "NewToolResponse";
            Call [Stmt [Qual "github.com/metoro-io/mcp-golang" "NewTextContent";
                        Call [Stmt [String;
                                    Call [Stmt [Id "resp"; Dot "Body"]]]]]]];
      Stmt [Nil]]])
  = ToolText ∘ RespBody <$> respOf r.
Proof. reflexivity. Qed.

Lemma runHandler_call restClient method ctx argument rest :
  runHandler restClient
    (Stmt [List [Stmt [Id "resp"]; Stmt [Err]]; Op ":=";
           Id "restClient"; Dot method; Call [ctx; argument]] :: rest)
  = execStatements (restClient method) rest.
Proof. reflexivity. Qed.

(** What a synthesized handler computes, by the answer of the client. *)
Lemma runHandler_handlerBlock restClient op :
  runHandler restClient (handlerBlock op) =
  match restClient (clientMethod op) with
  | CallFailed err =>
    ToolError <$> Sprintf ("error calling " +:+ ID op +:+ ": %v") [err]
  | CallReturned resp =>
    if decide (RespStatusCode resp ≠ 200) then
      ToolError <$> Sprintf ("error on " +:+ ID op +:+ ": %s") [RespStatus resp]
    else Some (ToolText (RespBody resp))
  end.
Proof.
  unfold handlerBlock, clientMethod.
  rewrite runHandler_call, execStatements_guard, evalCond_err.
  rewrite evalReturn_errorf.
  rewrite execStatements_guard, evalCond_status, evalReturn_errorf.
  rewrite evalOperand_status.
  change (execStatements ?r [?s]) with (evalReturn r s).
  rewrite evalReturn_text.
  destruct (restClient (ID op +:+ "WithResponse")) as [err|resp].
  - reflexivity.
  - cbn [errOf respOf mbind option_bind fmap option_fmap option_map].
    rewrite bool_decide_eq_false_2 by (by intros [? [=]]).
    cbn [mbind option_bind]. unfold bool_decide.
    by destruct (decide_rel _ _ _); case_decide.
Qed.

(** C9, as the code has it. The handler synthesized for an Operation whose
    identifier holds no percent sign calls [<ID>WithResponse] on the client
    and: on a transport error returns the error "error calling <ID>: "
    followed by the text of that error; on any status code other than 200
    returns the error "error on <ID>: " followed by the status text; on
    status code 200 returns the response body as the text content of the
    tool response. *)
Theorem C9_handler_results restClient op :
  noPercent (ID op) = true →
  runHandler restClient (handlerBlock op) =
  Some (match restClient (ID op +:+ "WithResponse") with
        | CallFailed err =>
          ToolError ("error calling " +:+ ID op +:+ ": " +:+ err)
        | CallReturned resp =>
          if decide (RespStatusCode resp = 200) then ToolText (RespBody resp)
          else ToolError ("error on " +:+ ID op +:+ ": " +:+ RespStatus resp)
        end).
Proof.
  intros Hid. rewrite runHandler_handlerBlock. unfold clientMethod.
  destruct (restClient (ID op +:+ "WithResponse")) as [err|resp].
  - by rewrite Sprintf_error_calling.
  - repeat case_decide; try done. by rewrite Sprintf_error_on.
Qed.

Lemma C9_handler_results_witness :
  noPercent (ID Example.listBooksInfo) = true ∧
  runHandler (λ _, CallReturned (mkClientResponse 404 "404 Not Found" ""))
             (handlerBlock Example.listBooksInfo)
  = Some (ToolError "error on ListBooks: 404 Not Found").
Proof.
  split; [reflexivity|].
  apply (C9_handler_results
           (λ _, CallReturned (mkClientResponse 404 "404 Not Found" ""))
           Example.listBooksInfo).
  reflexivity.
Defined.

(** C9 does not hold as the design document states it: status 201 is a
    success status, yet the handler of
    [ListBooks] answers a 201 response with an error instead of the response
    payload. *)
Lemma C9_success_status_counterexample :
  successStatus 201 = true ∧
  runHandler (λ _, CallReturned (mkClientResponse 201 "201 Created" "{}"))
             (handlerBlock Example.listBooksInfo)
  = Some (ToolError "error on ListBooks: 201 Created") ∧
  runHandler (λ _, CallReturned (mkClientResponse 201 "201 Created" "{}"))
             (handlerBlock Example.listBooksInfo)
  ≠ Some (ToolText "{}").
Proof.
  assert (runHandler
            (λ _, CallReturned (mkClientResponse 201 "201 Created" "{}"))
            (handlerBlock Example.listBooksInfo)
          = Some (ToolError "error on ListBooks: 201 Created")) as Hrun
    by (vm_compute; reflexivity).
  split; [reflexivity|]. split; [exact Hrun|].
  rewrite Hrun. discriminate.
Qed.

(** ** The example of the design document, end to end

    The description with [GET /books] ([ListBooks]) and [POST /books]
    ([AddBook]) yields a table of two Operations with the fallback texts,
    and the run hands one file to [Save] that registers both tools. *)

Example example_table :
  extractOperations Example.doc ["/books"]
  = {[ "ListBooks" := Example.listBooksInfo; "AddBook" := Example.addBookInfo ]}.
Proof. vm_compute. reflexivity. Qed.

Example example_run :
  outcome (generateMCPServer Example.rt Example.cli) = Ok tt ∧
  savedFiles (events (generateMCPServer Example.rt Example.cli))
  = [(synthesize Example.cli [Example.addBookInfo; Example.listBooksInfo],
      "./generated/main.go")].
Proof. split; vm_compute; reflexivity. Qed.

Example example_handler_by_value :
  callArgument (handlerBlock Example.addBookInfo) = Some (Stmt [Id "arguments"]) ∧
  callArgument (handlerBlock Example.listBooksInfo)
  = Some (Stmt [Op "&"; Id "arguments"]).
Proof. split; reflexivity. Qed.

(** * Further properties of the code *)

(** ** extractAppNameFromURL *)

Lemma Split_not_nil s sep : Split s sep ≠ [].
Proof.
  induction s as [|c s IH]; simpl; [done|].
  case_decide; [done|]. by destruct (Split s sep).
Qed.

Lemma Split_parts_noSlash s part :
  part ∈ Split s "/" → noSlash part = true.
Proof.
  revert part. induction s as [|c s IH]; intros part; cbn [Split].
  - by intros ->%list_elem_of_singleton.
  - case_decide as Hc.
    + intros [->|Hin]%elem_of_cons; [done|]. by apply IH.
    + pose proof (Split_not_nil s "/") as Hnil.
      destruct (Split s "/") as [|first parts]; [done|].
      intros [->|Hin]%elem_of_cons.
      * cbn [noSlash]. rewrite decide_False by done. apply IH. by left.
      * apply IH. by right.
Qed.

Lemma firstNonEmpty_Some pathParts part :
  firstNonEmpty pathParts = Some part → part ≠ "" ∧ part ∈ pathParts.
Proof.
  induction pathParts as [|p pathParts IH]; cbn [firstNonEmpty]; [done|].
  case_decide as Hp.
  - intros [= <-]. split; [done|by left].
  - intros [? ?]%IH. split; [done|by right].
Qed.

(** X1. The application name is never empty and never contains a slash,
    whatever the URL: it is a path segment or the default "app". *)
Theorem X1_app_name_is_a_segment rt urlStr :
  extractAppNameFromURL rt urlStr ≠ "" ∧
  noSlash (extractAppNameFromURL rt urlStr) = true.
Proof.
  unfold extractAppNameFromURL.
  destruct (url_Parse rt urlStr) as [parsedURL|?]; [|done].
  destruct (firstNonEmpty _) as [part|] eqn:Hfirst; [|done].
  apply firstNonEmpty_Some in Hfirst as [? ?].
  split; [done|]. by eapply Split_parts_noSlash.
Qed.

Lemma Split_slash s : Split (String.String "/" s) "/" = "" :: Split s "/".
Proof. cbn [Split]. by rewrite decide_True. Qed.

Lemma Split_segment seg rest :
  noSlash seg = true →
  Split (seg +:+ rest) "/" =
  match Split rest "/" with
  | part :: parts => (seg +:+ part) :: parts
  | [] => [seg]
  end.
Proof.
  induction seg as [|c seg IH].
  - intros _. change ("" +:+ rest) with rest.
    pose proof (Split_not_nil rest "/").
    by destruct (Split rest "/").
  - cbn [noSlash]. case_decide as Hc; [done|]. intros Hseg.
    change (String.String c seg +:+ rest)
      with (String.String c (seg +:+ rest)).
    cbn [Split]. rewrite decide_False by done. rewrite IH by done.
    pose proof (Split_not_nil rest "/").
    by destruct (Split rest "/").
Qed.

Lemma firstNonEmpty_skip_slashes slashes s :
  onlySlashes slashes = true →
  firstNonEmpty (Split (slashes +:+ s) "/") = firstNonEmpty (Split s "/").
Proof.
  induction slashes as [|c slashes IH]; [done|].
  cbn [onlySlashes]. case_decide as Hc; [|done]. subst c. intros Hslashes.
  change (String.String "/" slashes +:+ s)
    with (String.String "/" (slashes +:+ s)).
  rewrite Split_slash. cbn [firstNonEmpty].
  rewrite decide_False by (by intros []). by apply IH.
Qed.

(** X2. For a URL that parses, the application name is the first non-empty
    segment of its path: leading slashes are skipped and the segment ends
    at the next slash or at the end of the path. *)
Theorem X2_app_name_first_segment rt urlStr parsedURL slashes seg rest :
  url_Parse rt urlStr = Ok parsedURL →
  Path parsedURL = slashes +:+ seg +:+ rest →
  onlySlashes slashes = true →
  seg ≠ "" → noSlash seg = true →
  (rest = "" ∨ ∃ rest', rest = String.String "/" rest') →
  extractAppNameFromURL rt urlStr = seg.
Proof.
  intros Hparse Hpath Hslashes Hseg Hnoslash Hrest.
  unfold extractAppNameFromURL. rewrite Hparse, Hpath.
  rewrite firstNonEmpty_skip_slashes, Split_segment by done.
  destruct Hrest as [->|[rest' ->]].
  - cbn [Split firstNonEmpty]. rewrite append_empty_r.
    by rewrite decide_True.
  - rewrite Split_slash, append_empty_r. cbn [firstNonEmpty].
    by rewrite decide_True.
Qed.

Lemma X2_app_name_first_segment_witness :
  url_Parse Example.rt (ServerURL Example.cli)
    = Ok (mkURL "https" "/api/convert") ∧
  extractAppNameFromURL Example.rt (ServerURL Example.cli) = "api".
Proof.
  split; [reflexivity|].
  apply (X2_app_name_first_segment Example.rt (ServerURL Example.cli)
           (mkURL "https" "/api/convert") "/" "api" "/convert").
  - reflexivity.
  - reflexivity.
  - reflexivity.
  - discriminate.
  - reflexivity.
  - right. by exists "convert".
Defined.

(** X3. The application name is the default "app" when the URL does not
    parse and when its path has no segment (it is empty or consists of
    slashes only). *)
Theorem X3_app_name_default rt urlStr :
  (∀ parsedURL, url_Parse rt urlStr = Ok parsedURL →
                onlySlashes (Path parsedURL) = true) →
  extractAppNameFromURL rt urlStr = "app".
Proof.
  intros Hpath. unfold extractAppNameFromURL.
  destruct (url_Parse rt urlStr) as [parsedURL|?]; [|done].
  specialize (Hpath parsedURL eq_refl).
  pose proof (firstNonEmpty_skip_slashes (Path parsedURL) "" Hpath) as Hskip.
  rewrite append_empty_r in Hskip. by rewrite Hskip.
Qed.

Lemma X3_app_name_default_witness :
  (∀ parsedURL, url_Parse rtBadURL "%zz" = Ok parsedURL →
                onlySlashes (Path parsedURL) = true) ∧
  extractAppNameFromURL rtBadURL "%zz" = "app".
Proof.
  split; [by intros parsedURL [=]|].
  apply (X3_app_name_default rtBadURL "%zz"). by intros parsedURL [=].
Defined.

(** ** The run of the generator, by outcome *)

Lemma loadOpenAPISpec_validated rt specPath doc :
  outcome (loadOpenAPISpec rt specPath) = Ok doc → Validate rt doc = None.
Proof.
  unfold loadOpenAPISpec, outcome.
  destruct (match url_Parse rt specPath with
            | Ok parsedURL => _ | Failed _ => _ end); simpl.
  - destruct (http_Get rt specPath) as [resp|?]; simpl; [|done].
    case_decide; simpl; [done|].
    destruct (Body resp) as [content|?]; simpl; [|done].
    destruct (LoadFromData rt content) as [doc'|?]; simpl; [|done].
    destruct (Validate rt doc') eqn:Hvalid; simpl; [done|]. by intros [= <-].
  - destruct (LoadFromFile rt specPath) as [doc'|?]; simpl; [|done].
    destruct (Validate rt doc') eqn:Hvalid; simpl; [done|]. by intros [= <-].
Qed.

(** X4. A description reaches the extractor only after validation: whenever
    the loader returns a document, [doc.Validate] accepted it, and the
    generator hands a file to [Save] only for such a document. *)
Theorem X4_only_validated_descriptions rt cli :
  (∀ doc, loaded rt cli doc → Validate rt doc = None) ∧
  (∀ f path, (f, path) ∈ savedFiles (events (generateMCPServer rt cli)) →
     ∃ doc, loaded rt cli doc ∧ Validate rt doc = None ∧
            f = generatedFile rt cli doc ∧ path = Output cli).
Proof.
  split; [intros doc Hdoc; by apply (loadOpenAPISpec_validated rt (Spec cli))|].
  intros f path Hin.
  destruct (outcome (loadOpenAPISpec rt (Spec cli))) as [doc|err] eqn:Hload.
  - destruct (decide (tableOf rt doc = ∅)) as [Hempty|Hnonempty].
    + rewrite (generateMCPServer_empty rt cli doc) in Hin by done.
      pose proof (loadOpenAPISpec_saves_nothing rt (Spec cli)) as Hnone.
      unfold events in *. simpl in Hin. rewrite Hnone in Hin.
      by apply not_elem_of_nil in Hin.
    + destruct (generateMCPServer_saves rt cli doc) as [Hsaved _]; [done..|].
      rewrite Hsaved in Hin. apply list_elem_of_singleton in Hin as [= -> ->].
      exists doc. split_and!; try done.
      by apply (loadOpenAPISpec_validated rt (Spec cli)).
  - rewrite (generateMCPServer_load_failed rt cli err) in Hin by done.
    pose proof (loadOpenAPISpec_saves_nothing rt (Spec cli)) as Hnone.
    unfold events in *. simpl in Hin. rewrite Hnone in Hin.
    by apply not_elem_of_nil in Hin.
Qed.

(** X5. The generator returns no error exactly when the description loads,
    the Operation Table is non-empty and [Save] succeeds; an error of [Save]
    is returned as it is, after the file was handed over. *)
Theorem X5_generator_outcome rt cli :
  (outcome (generateMCPServer rt cli) = Ok tt ↔
   ∃ doc, loaded rt cli doc ∧ tableOf rt doc ≠ ∅ ∧
          Save rt (generatedFile rt cli doc) (Output cli) = None) ∧
  (∀ doc err, loaded rt cli doc → tableOf rt doc ≠ ∅ →
     Save rt (generatedFile rt cli doc) (Output cli) = Some err →
     outcome (generateMCPServer rt cli) = Failed err ∧
     savedFiles (events (generateMCPServer rt cli))
       = [(generatedFile rt cli doc, Output cli)]).
Proof.
  split.
  - destruct (outcome (loadOpenAPISpec rt (Spec cli))) as [doc|err] eqn:Hload.
    + destruct (decide (tableOf rt doc = ∅)) as [Hempty|Hnonempty].
      * rewrite (generateMCPServer_empty rt cli doc) by done.
        split; [done|]. intros (doc' & Hdoc' & Hne & _).
        unfold loaded in Hdoc'. congruence.
      * destruct (generateMCPServer_saves rt cli doc) as [_ ->]; [done..|].
        split.
        -- intros Hsave. exists doc. split_and!; [done..|].
           by destruct (Save rt _ _).
        -- intros (doc' & Hdoc' & _ & Hsave). unfold loaded in Hdoc'.
           assert (doc' = doc) as -> by congruence. by rewrite Hsave.
    + rewrite (generateMCPServer_load_failed rt cli err) by done.
      split; [done|]. intros (doc' & Hdoc' & _). unfold loaded in Hdoc'.
      congruence.
  - intros doc err Hloaded Hnonempty Hsave.
    destruct (generateMCPServer_saves rt cli doc) as [-> ->]; [done..|].
    by rewrite Hsave.
Qed.

(** X6. Every error of the loader carries one of its labels in front of
    the underlying cause, so the failing step can be told from the text. *)
Theorem X6_loader_errors_are_labelled rt specPath err :
  outcome (loadOpenAPISpec rt specPath) = Failed err →
  ∃ label detail, label ∈ loaderErrorLabels ∧ err = label +:+ detail.
Proof.
  unfold loadOpenAPISpec, outcome, loaderErrorLabels.
  destruct (match url_Parse rt specPath with
            | Ok parsedURL => _ | Failed _ => _ end); simpl.
  - destruct (http_Get rt specPath) as [resp|e]; simpl.
    + case_decide; simpl.
      { intros [= <-]. exists "HTTP error: ". eexists. split; [|done].
        set_solver. }
      destruct (Body resp) as [content|e]; simpl.
      * destruct (LoadFromData rt content) as [doc|e]; simpl.
        -- destruct (Validate rt doc) as [e|]; simpl; [|done].
           intros [= <-]. exists "invalid OpenAPI spec: ", e. set_solver.
        -- intros [= <-]. exists "error parsing OpenAPI spec: ", e. set_solver.
      * intros [= <-]. exists "error reading response body: ", e. set_solver.
    + intros [= <-]. exists "error fetching from URL: ", e. set_solver.
  - destruct (LoadFromFile rt specPath) as [doc|e]; simpl.
    + destruct (Validate rt doc) as [e|]; simpl; [|done].
      intros [= <-]. exists "invalid OpenAPI spec: ", e. set_solver.
    + intros [= <-]. exists "error loading OpenAPI spec from file: ", e.
      set_solver.
Qed.

Lemma X6_loader_errors_are_labelled_witness :
  outcome (loadOpenAPISpec rtBadURL "%zz")
    = Failed "error loading OpenAPI spec from file: no such file" ∧
  ∃ label detail,
    label ∈ loaderErrorLabels ∧
    "error loading OpenAPI spec from file: no such file" = label +:+ detail.
Proof.
  split; [reflexivity|].
  apply (X6_loader_errors_are_labelled rtBadURL "%zz"). reflexivity.
Defined.

(** ** main of the server generator *)

Lemma generatorEvents_app out1 out2 :
  generatorEvents (out1 ++ out2) = generatorEvents out1 ++ generatorEvents out2.
Proof. apply omap_app. Qed.

Lemma generatorEvents_Generator generated :
  generatorEvents (Generator <$> generated) = generated.
Proof.
  unfold generatorEvents.
  induction generated as [|e generated IH]; [done|]. simpl. f_equal. exact IH.
Qed.

Lemma createdDirs_Generator generated :
  createdDirs (Generator <$> generated) = [].
Proof. by induction generated. Qed.

Lemma savedFiles_app out1 out2 :
  savedFiles (out1 ++ out2) = savedFiles out1 ++ savedFiles out2.
Proof. apply omap_app. Qed.

(** What [resolveOutput] leaves behind: no saved file, and the output path
    it was given when that was not empty. *)
Lemma resolveOutput_events rt os cli out r :
  resolveOutput rt os cli = (out, r) →
  savedFiles (generatorEvents out) = [] ∧
  (Output cli ≠ "" → out = [] ∧ r = Ok cli).
Proof.
  unfold resolveOutput. case_decide as Houtput.
  - destruct (os_MkdirAll os _); intros [= <- <-]; by split.
  - intros [= <- <-]. by split.
Qed.

(** The saved files of a run of the generator, by its outcome. *)
Lemma generateMCPServer_saved rt cli :
  match outcome (generateMCPServer rt cli) with
  | Ok _ =>
    ∃ f, savedFiles (events (generateMCPServer rt cli)) = [(f, Output cli)] ∧
         Save rt f (Output cli) = None
  | Failed err =>
    savedFiles (events (generateMCPServer rt cli)) = [] ∨
    ∃ f, savedFiles (events (generateMCPServer rt cli)) = [(f, Output cli)] ∧
         Save rt f (Output cli) = Some err
  end.
Proof.
  destruct (outcome (loadOpenAPISpec rt (Spec cli))) as [doc|err] eqn:Hload.
  - destruct (decide (tableOf rt doc = ∅)) as [Hempty|Hnonempty].
    + rewrite (generateMCPServer_empty rt cli doc) by done.
      left. apply loadOpenAPISpec_saves_nothing.
    + destruct (generateMCPServer_saves rt cli doc) as [-> ->]; [done..|].
      destruct (Save rt _ _) eqn:Hsave; eauto.
  - rewrite (generateMCPServer_load_failed rt cli err) by done.
    left. apply loadOpenAPISpec_saves_nothing.
Qed.

(** X7. [main] returns normally only after exactly one file was handed to
    [Save] and [Save] succeeded; the last thing it prints is then the
    success line with the path of that file. When it ends fatally, either
    no file was handed to [Save] or [Save] failed with the reported
    error. *)
Theorem X7_main_exit rt os cli :
  match (main rt os cli).2 with
  | Returned =>
    ∃ f path,
      savedFiles (generatorEvents (main rt os cli).1) = [(f, path)] ∧
      Save rt f path = None ∧
      last (main rt os cli).1 =
        Some (Generator (Printf ("MCP server generated successfully: "
                                 +:+ path +:+ LF))) ∧
      (Output cli ≠ "" → path = Output cli)
  | Fatal err =>
    savedFiles (generatorEvents (main rt os cli).1) = [] ∨
    ∃ f path,
      savedFiles (generatorEvents (main rt os cli).1) = [(f, path)] ∧
      Save rt f path = Some err
  end.
Proof.
  unfold main.
  destruct (resolveOutput rt os cli) as [out [cli'|err]] eqn:Hresolve.
  - destruct (resolveOutput_events _ _ _ _ _ Hresolve) as [Hnone Hexplicit].
    pose proof (generateMCPServer_saved rt cli') as Hsaved.
    unfold outcome, events in Hsaved.
    destruct (generateMCPServer rt cli') as [generated [[]|err]]; simpl in *.
    + destruct Hsaved as (f & Hsaved & Hsave).
      exists f, (Output cli').
      rewrite !generatorEvents_app, generatorEvents_Generator.
      rewrite !savedFiles_app, Hnone, Hsaved. split_and!; [done|done| |].
      * by rewrite app_assoc, last_snoc.
      * intros Hne. destruct (Hexplicit Hne) as [_ [= ->]]. done.
    + rewrite !generatorEvents_app, generatorEvents_Generator.
      rewrite !savedFiles_app, Hnone. simpl.
      destruct Hsaved as [->|(f & -> & Hsave)]; [by left|right; eauto].
  - simpl. left. by destruct (resolveOutput_events _ _ _ _ _ Hresolve).
Qed.

Lemma createdDirs_app out1 out2 :
  createdDirs (out1 ++ out2) = createdDirs out1 ++ createdDirs out2.
Proof. apply omap_app. Qed.

(** The events of [main] once the output path is resolved: [out], then the
    events of the generator, then at most the success line. *)
Lemma main_resolved rt os cli out cli' :
  resolveOutput rt os cli = (out, Ok cli') →
  (∃ rest, (main rt os cli).1 = out ++ rest) ∧
  createdDirs (main rt os cli).1 = createdDirs out ∧
  savedFiles (generatorEvents (main rt os cli).1)
    = savedFiles (events (generateMCPServer rt cli')).
Proof.
  intros Hresolve.
  destruct (resolveOutput_events _ _ _ _ _ Hresolve) as [Hnone _].
  unfold main, events. rewrite Hresolve.
  destruct (generateMCPServer rt cli') as [generated [[]|err]]; simpl.
  - split_and!; [eauto| |].
    + rewrite !createdDirs_app, createdDirs_Generator. simpl.
      by rewrite app_nil_r.
    + rewrite !generatorEvents_app, generatorEvents_Generator.
      rewrite !savedFiles_app, Hnone. simpl. by rewrite app_nil_r.
  - split_and!; [eauto| |].
    + rewrite !createdDirs_app, createdDirs_Generator. by rewrite app_nil_r.
    + rewrite !generatorEvents_app, generatorEvents_Generator.
      by rewrite !savedFiles_app, Hnone.
Qed.

(** X8. With an explicit output path [main] creates no directory. With an
    empty one it creates exactly the directory [cmd/<lower-case application
    name>] before anything else; if that fails, [main] ends fatally and the
    generator does not run: nothing is printed, loaded or saved. Otherwise
    the file is saved as [main.go] in that directory. *)
Theorem X8_main_output_directory rt os cli :
  (Output cli ≠ "" → createdDirs (main rt os cli).1 = []) ∧
  (Output cli = "" →
   let outputDir :=
     filepath_Join os
       ["cmd"; strings_ToLower os (extractAppNameFromURL rt (ServerURL cli))] in
   createdDirs (main rt os cli).1 = [outputDir] ∧
   head (main rt os cli).1 = Some (MkdirAll outputDir) ∧
   (∀ err, os_MkdirAll os outputDir = Some err →
      main rt os cli =
      ([MkdirAll outputDir],
       Fatal ("error creating output directory: " +:+ err))) ∧
   (os_MkdirAll os outputDir = None →
    ∀ f path, (f, path) ∈ savedFiles (generatorEvents (main rt os cli).1) →
              path = filepath_Join os [outputDir; "main.go"])).
Proof.
  split.
  - intros Houtput.
    assert (resolveOutput rt os cli = ([], Ok cli)) as Hresolve.
    { unfold resolveOutput. by rewrite decide_False. }
    by destruct (main_resolved _ _ _ _ _ Hresolve) as (_ & -> & _).
  - intros Houtput outputDir.
    destruct (os_MkdirAll os outputDir) as [err|] eqn:Hmkdir.
    + assert (main rt os cli =
              ([MkdirAll outputDir],
               Fatal ("error creating output directory: " +:+ err))) as ->.
      { unfold main, resolveOutput. rewrite decide_True by done.
        fold outputDir. by rewrite Hmkdir. }
      split_and!; [done|done| |done]. by intros ? [= <-].
    + set (cli' := setOutput cli (filepath_Join os [outputDir; "main.go"])).
      assert (resolveOutput rt os cli =
              ([MkdirAll outputDir;
                Generator (Printf ("Output file not specified, using: "
                                   +:+ Output cli' +:+ LF))],
               Ok cli')) as Hresolve.
      { unfold resolveOutput. rewrite decide_True by done.
        fold outputDir. by rewrite Hmkdir. }
      destruct (main_resolved _ _ _ _ _ Hresolve)
        as ([rest ->] & -> & ->).
      split_and!; [done|done|done|]. intros _ f path Hin.
      pose proof (generateMCPServer_saved rt cli') as Hsaved.
      destruct (outcome (generateMCPServer rt cli')).
      * destruct Hsaved as (f' & Hsaved & _). rewrite Hsaved in Hin.
        by apply list_elem_of_singleton in Hin as [= -> ->].
      * destruct Hsaved as [Hsaved|(f' & Hsaved & _)]; rewrite Hsaved in Hin.
        -- by apply not_elem_of_nil in Hin.
        -- by apply list_elem_of_singleton in Hin as [= -> ->].
Qed.

Lemma X8_main_output_directory_witness :
  createdDirs (main Example.rt platform Example.cli).1 = [] ∧
  createdDirs (main Example.rt platform (setOutput Example.cli "")).1
    = ["cmd/api"] ∧
  main Example.rt platformReadOnly (setOutput Example.cli "")
    = ([MkdirAll "cmd/api"],
       Fatal "error creating output directory: permission denied").
Proof.
  destruct (X8_main_output_directory Example.rt platform Example.cli)
    as [Hexplicit _].
  destruct (X8_main_output_directory Example.rt platform
              (setOutput Example.cli "")) as [_ Hderived].
  destruct (X8_main_output_directory Example.rt platformReadOnly
              (setOutput Example.cli "")) as [_ Hfailed].
  split_and!.
  - apply Hexplicit. discriminate.
  - apply (Hderived eq_refl).
  - apply (Hfailed eq_refl). reflexivity.
Defined.

(** ** The size and the keys of the Operation Table *)

Lemma processOperation_size path method operation operations :
  (size (processOperation path method operation operations)
   ≤ S (size operations))%nat.
Proof.
  destruct operation as [operation|]; [|simpl; lia].
  rewrite processOperation_recordOf.
  destruct (recordOf path method operation); [|lia].
  rewrite map_size_insert. destruct (operations !! _); simpl; lia.
Qed.

Lemma processPathItem_size path pathItem operations :
  (size (processPathItem path pathItem operations) ≤ 7 + size operations)%nat.
Proof.
  unfold processPathItem.
  repeat (etrans; [apply processOperation_size|]; apply le_n_S). lia.
Qed.

(** X9. The Operation Table holds at most seven Operations per visited
    path. *)
Theorem X9_table_size_bound doc paths :
  (size (extractOperations doc paths) ≤ 7 * length paths)%nat.
Proof.
  unfold extractOperations.
  assert (∀ operations : OperationTable,
            (size (foldl (λ operations path,
                           match openapi3.Find doc path with
                           | None => operations
                           | Some pathItem =>
                             processPathItem path pathItem operations
                           end) operations paths)
            ≤ 7 * length paths + size operations)%nat) as Hbound.
  { induction paths as [|path paths IH]; intros operations; simpl; [lia|].
    etrans; [apply IH|].
    destruct (openapi3.Find doc path) as [pathItem|]; [|lia].
    pose proof (processPathItem_size path pathItem operations). lia. }
  specialize (Hbound ∅). by rewrite map_size_empty, Nat.add_0_r in Hbound.
Qed.

(** X10. Which identifiers the Operation Table holds does not depend on the
    order in which the paths are visited (only which record a repeated
    identifier keeps does). *)
Theorem X10_table_keys_order_independent doc paths1 paths2 :
  paths1 ≡ₚ paths2 →
  dom (extractOperations doc paths1) = dom (extractOperations doc paths2).
Proof.
  intros Hperm. apply set_eq. intros id.
  rewrite !elem_of_dom, !extractOperations_is_Some.
  apply and_iff_compat_l. split; intros (c & Hc & Hid); exists c;
    (split; [|done]); apply elem_of_callsOf; apply elem_of_callsOf in Hc;
    [by rewrite <-Hperm|by rewrite Hperm].
Qed.

Lemma X10_table_keys_order_independent_witness :
  ["/books"; "/authors/{id}"] ≡ₚ ["/authors/{id}"; "/books"] ∧
  dom (extractOperations library ["/books"; "/authors/{id}"])
  = dom (extractOperations library ["/authors/{id}"; "/books"]).
Proof.
  split; [apply Permutation_swap|].
  apply (X10_table_keys_order_independent library). apply Permutation_swap.
Defined.

Lemma callsWithID_unique (calls : list ProcessCall) id :
  id ≠ "" →
  NoDup (filter (λ id, id ≠ "")
                (openapi3.OperationID ∘ callOperation <$> calls)) →
  (length (callsWithID id calls) ≤ 1)%nat.
Proof.
  intros Hid. unfold callsWithID.
  induction calls as [|c calls IH]; [simpl; lia|].
  rewrite fmap_cons, !filter_cons.
  destruct (decide (openapi3.OperationID (callOperation c) = id)) as [Hc|Hc].
  - rewrite decide_True by (simpl; congruence).
    intros [Hnotin Hnodup]%NoDup_cons. simpl. apply le_n_S.
    assert (filter (λ c, openapi3.OperationID (callOperation c) = id) calls
            = []) as ->; [|done].
    destruct (filter _ calls) as [|c' rest] eqn:Hfilter; [done|].
    assert (c' ∈ filter (λ c, openapi3.OperationID (callOperation c) = id)
                        calls) as [Hc' Hin]%list_elem_of_filter
      by (rewrite Hfilter; by left).
    exfalso. apply Hnotin, list_elem_of_filter. split; [simpl; congruence|].
    apply list_elem_of_fmap. exists c'. split; [simpl; congruence|done].
  - destruct (decide ((openapi3.OperationID ∘ callOperation) c ≠ ""));
      [intros [_ ?]%NoDup_cons|]; auto.
Qed.

(** X11. When no non-empty identifier is defined twice, the whole Operation
    Table is independent of the order in which the paths are visited. *)
Theorem X11_unique_identifiers_order_independent doc paths1 paths2 :
  paths1 ≡ₚ paths2 →
  NoDup (usableIDs doc paths1) →
  extractOperations doc paths1 = extractOperations doc paths2.
Proof.
  intros Hperm Hnodup. apply map_eq. intros id.
  destruct (decide (id = "")) as [->|Hid].
  { transitivity (@None OperationInfo); [|symmetry];
      apply eq_None_not_Some; by intros [? _]%extractOperations_is_Some. }
  rewrite !extractOperations_calls, !foldl_applyCall_lookup by done.
  assert (callsWithID id (callsOf doc paths1)
          ≡ₚ callsWithID id (callsOf doc paths2)) as Hcalls.
  { unfold callsWithID, callsOf. by rewrite Hperm. }
  pose proof (callsWithID_unique (callsOf doc paths1) id Hid Hnodup) as Hlen.
  destruct (callsWithID id (callsOf doc paths1)) as [|c [|c' calls]];
    [| |simpl in Hlen; lia].
  - symmetry in Hcalls. apply Permutation_nil_r in Hcalls. by rewrite Hcalls.
  - apply Permutation_singleton_l in Hcalls. by rewrite <-Hcalls.
Qed.

Lemma X11_unique_identifiers_order_independent_witness :
  ["/books"; "/authors/{id}"] ≡ₚ ["/authors/{id}"; "/books"] ∧
  NoDup (usableIDs library ["/books"; "/authors/{id}"]) ∧
  extractOperations library ["/books"; "/authors/{id}"]
  = extractOperations library ["/authors/{id}"; "/books"].
Proof.
  assert (NoDup (usableIDs library ["/books"; "/authors/{id}"])) as Hnodup.
  { apply (bool_decide_unpack _). vm_compute. exact I. }
  split; [apply Permutation_swap|]. split; [exact Hnodup|].
  apply (X11_unique_identifiers_order_independent library).
  - apply Permutation_swap.
  - exact Hnodup.
Defined.

(** ** The registrations of the synthesized program *)

Lemma generateMCPServer_found rt cli doc :
  loaded rt cli doc → tableOf rt doc ≠ ∅ →
  Printf ("Found " +:+ pretty (size (tableOf rt doc))
          +:+ " operations in the OpenAPI spec" +:+ LF)
    ∈ events (generateMCPServer rt cli).
Proof.
  unfold loaded, generateMCPServer, outcome, events, tableOf.
  destruct (loadOpenAPISpec rt (Spec cli)) as [out [doc'|?]]; simpl; [|done].
  intros [= ->] Hnonempty. unfold mbind, M_bind, bind. simpl.
  rewrite decide_False by by rewrite map_size_empty_iff.
  simpl. destruct (save rt _ _) as [out' r]. simpl.
  apply elem_of_app. right. by left.
Qed.

(** X12. The synthesized program registers every Operation of the table
    once and nothing else: its tool names are pairwise different, and their
    number is the number of Operations, which is the number the generator
    prints in "Found N operations". *)
Theorem X12_registrations_match_table rt cli doc f path :
  GoRange rt →
  loaded rt cli doc →
  (f, path) ∈ savedFiles (events (generateMCPServer rt cli)) →
  NoDup (registeredTools (mainOf f)) ∧
  length (registeredTools (mainOf f)) = size (tableOf rt doc) ∧
  Printf ("Found " +:+ pretty (length (registeredTools (mainOf f)))
          +:+ " operations in the OpenAPI spec" +:+ LF)
    ∈ events (generateMCPServer rt cli).
Proof.
  intros [_ Hrange] Hloaded Hin.
  destruct (decide (tableOf rt doc = ∅)) as [Hempty|Hnonempty].
  { rewrite (generateMCPServer_empty rt cli doc) in Hin by done.
    pose proof (loadOpenAPISpec_saves_nothing rt (Spec cli)) as Hnone.
    unfold events in *. simpl in Hin. rewrite Hnone in Hin.
    by apply not_elem_of_nil in Hin. }
  destruct (generateMCPServer_saves rt cli doc) as [Hsaved _]; [done..|].
  rewrite Hsaved in Hin. apply list_elem_of_singleton in Hin as [= -> ->].
  unfold generatedFile. rewrite mainOf_synthesize, registeredTools_mainBody.
  assert (ID <$> rangeOperations rt (tableOf rt doc)
          ≡ₚ (map_to_list (tableOf rt doc)).*1) as Hnames.
  { rewrite (Hrange (tableOf rt doc)).
    by rewrite table_identifiers by apply extractOperations_invariant. }
  assert (length (ID <$> rangeOperations rt (tableOf rt doc))
          = size (tableOf rt doc)) as Hlength.
  { by rewrite Hnames, length_fmap, length_map_to_list. }
  split_and!.
  - rewrite Hnames. apply NoDup_fst_map_to_list.
  - done.
  - rewrite Hlength. by apply generateMCPServer_found.
Qed.

Lemma X12_registrations_match_table_witness :
  GoRange Example.rt ∧
  loaded Example.rt Example.cli Example.doc ∧
  registeredTools (mainOf (generatedFile Example.rt Example.cli Example.doc))
    = ["AddBook"; "ListBooks"] ∧
  NoDup (registeredTools
           (mainOf (generatedFile Example.rt Example.cli Example.doc))) ∧
  length (registeredTools
            (mainOf (generatedFile Example.rt Example.cli Example.doc)))
    = size (tableOf Example.rt Example.doc).
Proof.
  assert (GoRange Example.rt) as Hrange by by apply GoRange_world.
  split; [exact Hrange|]. split; [reflexivity|].
  split; [vm_compute; reflexivity|].
  destruct (X12_registrations_match_table Example.rt Example.cli Example.doc
              (generatedFile Example.rt Example.cli Example.doc)
              (Output Example.cli)) as (Hnodup & Hlength & _).
  - exact Hrange.
  - reflexivity.
  - vm_compute. left.
  - split; [exact Hnodup|exact Hlength].
Defined.

(** X13. What the synthesizer writes for an operation that has a
    description depends on its identifier, its description and the presence
    of a request body only: the path, the method and the summary of the
    definition do not reach the program. *)
Theorem X13_registration_independent_of_route cli
    path method operation path' method' operation' info info' :
  openapi3.OperationID operation = openapi3.OperationID operation' →
  openapi3.Description operation = openapi3.Description operation' →
  openapi3.Description operation ≠ "" →
  carriesRequestBody operation = carriesRequestBody operation' →
  recordOf path method operation = Some info →
  recordOf path' method' operation' = Some info' →
  registerTool cli info = registerTool cli info'.
Proof.
  intros Hid Hdesc Hnonempty Hbody Hinfo Hinfo'.
  assert (openapi3.OperationID operation ≠ "") as Hne.
  { intros Hempty. by rewrite recordOf_no_id in Hinfo. }
  unfold recordOf in *.
  rewrite processOperation_lookup in Hinfo by done.
  rewrite processOperation_lookup in Hinfo' by congruence.
  injection Hinfo as <-. injection Hinfo' as <-.
  unfold registerTool, handlerBlock, paramExpr. simpl.
  rewrite <-Hid, <-Hbody, <-Hdesc. by rewrite !decide_False by done.
Qed.

Lemma X13_registration_independent_of_route_witness :
  openapi3.Description getAuthor ≠ "" ∧
  ∀ info info',
    recordOf "/authors/{id}" "GET" getAuthor = Some info →
    recordOf "/writers/{id}" "HEAD" getAuthor = Some info' →
    registerTool Example.cli info = registerTool Example.cli info'.
Proof.
  split; [discriminate|].
  intros info info'.
  apply (X13_registration_independent_of_route Example.cli
           "/authors/{id}" "GET" getAuthor "/writers/{id}" "HEAD" getAuthor);
    try reflexivity.
  discriminate.
Defined.

(** X14. From the two statements written for an Operation, its identifier,
    description, parameter type and request-body flag can be read back:
    Operations that differ in one of them get different statements. *)
Theorem X14_registration_determines_operation cli op1 op2 :
  registerTool cli op1 = registerTool cli op2 →
  ID op1 = ID op2 ∧ Description op1 = Description op2 ∧
  ParameterType op1 = ParameterType op2 ∧
  HasRequestBody op1 = HasRequestBody op2.
Proof.
  unfold registerTool, handlerBlock, paramExpr.
  destruct op1 as [id1 summary1 description1 type1 [|]],
           op2 as [id2 summary2 description2 type2 [|]];
    simpl; intros Heq; by simplify_eq.
Qed.

Lemma X14_registration_determines_operation_witness :
  registerTool Example.cli Example.addBookInfo
    = registerTool Example.cli Example.addBookInfo ∧
  ID Example.addBookInfo = ID Example.addBookInfo ∧
  Description Example.addBookInfo = Description Example.addBookInfo ∧
  ParameterType Example.addBookInfo = ParameterType Example.addBookInfo ∧
  HasRequestBody Example.addBookInfo = HasRequestBody Example.addBookInfo.
Proof.
  split; [reflexivity|].
  apply (X14_registration_determines_operation Example.cli). reflexivity.
Defined.

(** * The client generator *)

(** ** createConfigContent *)

Lemma string_app_assoc (s1 s2 s3 : string) :
  (s1 +:+ s2) +:+ s3 = s1 +:+ s2 +:+ s3.
Proof.
  apply list_ascii_of_string_inj.
  by rewrite !list_ascii_of_string_app, app_assoc.
Qed.

Lemma createConfigContent_shape packageName generateTypes generateClient :
  ClientGen.createConfigContent packageName generateTypes generateClient
  = "package: " +:+ packageName +:+ configTail generateTypes generateClient.
Proof.
  unfold ClientGen.createConfigContent, configTail.
  destruct generateTypes, generateClient; by rewrite !string_app_assoc.
Qed.

(** X15. The configuration content determines its inputs: two calls of
    [createConfigContent] give the same text only for the same package
    name and the same two flags, whatever the package name contains. *)
Theorem X15_config_content_injective p t c p' t' c' :
  ClientGen.createConfigContent p t c = ClientGen.createConfigContent p' t' c' →
  p = p' ∧ t = t' ∧ c = c'.
Proof.
  rewrite !createConfigContent_shape. intros Heq.
  apply (inj (String.append "package: ")) in Heq.
  apply (f_equal String.list_ascii_of_string) in Heq.
  rewrite !list_ascii_of_string_app in Heq.
  assert (t = t' ∧ c = c') as [<- <-].
  { apply (f_equal (take 136 ∘ reverse)) in Heq. simpl in Heq.
    rewrite !reverse_app in Heq.
    rewrite !take_app_le in Heq by (destruct t, c, t', c'; vm_compute; lia).
    destruct t, c, t', c'; vm_compute in Heq; by simplify_eq. }
  apply app_inv_tail in Heq. by apply list_ascii_of_string_inj in Heq.
Qed.

Lemma X15_config_content_injective_witness :
  ClientGen.createConfigContent "api" true false
    = ClientGen.createConfigContent "api" true false ∧
  "api" = "api" ∧ true = true ∧ false = false.
Proof.
  split; [reflexivity|].
  apply (X15_config_content_injective "api" true false "api" true false).
  reflexivity.
Defined.

(** ** Runs of the client generator *)

Lemma pbind_events {A B} (m : ClientGen.P A) (k : A → ClientGen.P B) :
  (m ≫= k).1 =
  m.1 ++ match m.2 with Ok a => (k a).1 | Failed _ => [] end.
Proof.
  unfold mbind, ClientGen.P_bind, ClientGen.pbind.
  destruct m as [out [a|err]]; simpl; [|by rewrite app_nil_r].
  by destruct (k a).
Qed.

Lemma pbind_outcome {A B} (m : ClientGen.P A) (k : A → ClientGen.P B) :
  (m ≫= k).2 = match m.2 with Ok a => (k a).2 | Failed err => Failed err end.
Proof.
  unfold mbind, ClientGen.P_bind, ClientGen.pbind.
  destruct m as [out [a|err]]; simpl; [|done]. by destruct (k a).
Qed.

Lemma pbind_Forall {A B} (Φ : ClientGen.Event → Prop)
    (m : ClientGen.P A) (k : A → ClientGen.P B) :
  Forall Φ m.1 → (∀ a, m.2 = Ok a → Forall Φ (k a).1) →
  Forall Φ (m ≫= k).1.
Proof.
  intros Hm Hk. rewrite pbind_events. apply Forall_app. split; [done|].
  destruct m.2 as [a|err] eqn:Hout; [by apply Hk|constructor].
Qed.

Lemma pbind_Ok_inv {A B} (m : ClientGen.P A) (k : A → ClientGen.P B) out b :
  m ≫= k = (out, Ok b) →
  ∃ out1 a out2, m = (out1, Ok a) ∧ k a = (out2, Ok b) ∧ out = out1 ++ out2.
Proof.
  unfold mbind, ClientGen.P_bind, ClientGen.pbind.
  destruct m as [out1 [a|err]]; [|done].
  destruct (k a) as [out2 r] eqn:Hk. intros [= <- ->]. eauto 10.
Qed.

Lemma pbind_Failed_inv {A B} (m : ClientGen.P A) (k : A → ClientGen.P B)
    out err :
  m ≫= k = (out, Failed err) →
  m = (out, Failed err) ∨
  ∃ out1 a out2, m = (out1, Ok a) ∧ k a = (out2, Failed err) ∧
                 out = out1 ++ out2.
Proof.
  unfold mbind, ClientGen.P_bind, ClientGen.pbind.
  destruct m as [out1 [a|err']]; [|intros [= <- <-]; by left].
  destruct (k a) as [out2 r] eqn:Hk. intros [= <- ->]. right. eauto 10.
Qed.

(** The value of [main] by the results of its three steps. *)
Lemma main_run os cli :
  ClientGen.main os cli =
  match ClientGen.getSpecContent os (ClientGen.Spec cli) with
  | (out0, Failed err) =>
    (out0, Failed ("Error getting spec content" +:+ ": " +:+ err))
  | (out0, Ok specContent) =>
    match ClientGen.os_MkdirTemp os "" "oapi-codegen" with
    | Failed err =>
      (out0 ++ [ClientGen.MkdirTemp "" "oapi-codegen"],
       Failed ("Error creating temp directory" +:+ ": " +:+ err))
    | Ok tempDir =>
      match ClientGen.inTempDir os cli specContent tempDir with
      | (out1, Failed err) =>
        (out0 ++ ClientGen.MkdirTemp "" "oapi-codegen" :: out1, Failed err)
      | (out1, Ok _) =>
        (out0 ++ ClientGen.MkdirTemp "" "oapi-codegen" :: out1
              ++ [ClientGen.RemoveAll tempDir], Ok tt)
      end
    end
  end.
Proof.
  unfold ClientGen.main, mbind, ClientGen.P_bind, ClientGen.pbind,
    ClientGen.orFatal, ClientGen.lift, ClientGen.emit, ClientGen.defer.
  destruct (ClientGen.getSpecContent os (ClientGen.Spec cli))
    as [out0 [specContent|err]]; [|done].
  destruct (ClientGen.os_MkdirTemp os "" "oapi-codegen") as [tempDir|err];
    [|done].
  by destruct (ClientGen.inTempDir os cli specContent tempDir)
    as [out1 [[]|err]].
Qed.

Ltac client_events :=
  repeat first
    [ apply pbind_Forall; [|intros ? ?]
    | progress (unfold ClientGen.emit, ClientGen.fatalIfError, ClientGen.pret,
                  ClientGen.pfail, ClientGen.lift)
    | case_match
    | case_decide
    | progress simpl
    | by repeat constructor ].

Lemma getSpecContent_events os specPath :
  Forall fetchEvent (ClientGen.getSpecContent os specPath).1.
Proof. unfold ClientGen.getSpecContent. client_events. Qed.

Lemma runCodegen_events os cli tempSpecPath configPath configContent :
  Forall workEvent
    (ClientGen.runCodegen os cli tempSpecPath configPath configContent).1.
Proof. unfold ClientGen.runCodegen. client_events. Qed.

Lemma writeOutput_events os cli output :
  Forall workEvent (ClientGen.writeOutput os cli output).1.
Proof. unfold ClientGen.writeOutput. client_events. Qed.

Lemma inTempDir_events os cli specContent tempDir :
  Forall workEvent (ClientGen.inTempDir os cli specContent tempDir).1.
Proof.
  unfold ClientGen.inTempDir.
  repeat first
    [ apply runCodegen_events | apply writeOutput_events
    | apply pbind_Forall; [|intros ? ?]
    | progress (unfold ClientGen.emit, ClientGen.fatalIfError, ClientGen.pret,
                  ClientGen.pfail)
    | case_match
    | progress simpl
    | by repeat constructor ].
Qed.

Lemma omap_Forall_None {A B} (f : A → option B) (l : list A) :
  Forall (λ x, f x = None) l → omap f l = [].
Proof. induction 1 as [|x l Hx _ IH]; simpl; [done|]. by rewrite Hx. Qed.

Lemma workEvents_observed out :
  Forall workEvent out →
  ClientGen.requests out = [] ∧ ClientGen.fileReads out = [] ∧
  ClientGen.bodyReads out = [] ∧ ClientGen.removed out = [].
Proof.
  intros Hout. split_and!; apply omap_Forall_None;
    (eapply Forall_impl; [exact Hout|]); by intros [].
Qed.

Lemma fetchEvents_observed out :
  Forall fetchEvent out →
  ClientGen.removed out = [] ∧ ClientGen.written out = [] ∧
  ClientGen.commands out = [].
Proof.
  intros Hout. split_and!; apply omap_Forall_None;
    (eapply Forall_impl; [exact Hout|]); by intros [].
Qed.

Lemma getSpecContent_reads os specPath :
  let out := (ClientGen.getSpecContent os specPath).1 in
  (if isRemote specPath
   then ClientGen.requests out = [specPath] ∧ ClientGen.fileReads out = []
   else ClientGen.requests out = [] ∧ ClientGen.fileReads out = [specPath]) ∧
  (ClientGen.bodyReads out ≠ [] →
   ∃ resp, ClientGen.http_Get os specPath = Ok resp ∧ StatusCode resp = 200).
Proof.
  unfold ClientGen.getSpecContent, isRemote.
  destruct (String.prefix "http://" specPath
            || String.prefix "https://" specPath); simpl.
  - destruct (ClientGen.http_Get os specPath) as [resp|err]; simpl; [|done].
    case_decide; simpl; [done|].
    split; [done|]. intros _. exists resp. split; [done|lia].
  - done.
Qed.

(** The events of [main] start with those of [getSpecContent]; what
    follows is the creation of the temporary directory, work events and
    the removal of the directory. *)
Lemma main_events os cli :
  ∃ rest,
    (ClientGen.main os cli).1
      = (ClientGen.getSpecContent os (ClientGen.Spec cli)).1 ++ rest ∧
    ClientGen.requests rest = [] ∧ ClientGen.fileReads rest = [] ∧
    ClientGen.bodyReads rest = [].
Proof.
  rewrite main_run.
  destruct (ClientGen.getSpecContent os (ClientGen.Spec cli))
    as [out0 [specContent|err]]; simpl; [|exists []; by rewrite app_nil_r].
  destruct (ClientGen.os_MkdirTemp os "" "oapi-codegen") as [tempDir|err];
    simpl; [|by eexists].
  pose proof (inTempDir_events os cli specContent tempDir) as Hwork.
  apply workEvents_observed in Hwork as (Hreq & Hfile & Hbody & _).
  destruct (ClientGen.inTempDir os cli specContent tempDir)
    as [out1 [[]|err]]; simpl in *; eexists; (split; [done|]);
    unfold ClientGen.requests, ClientGen.fileReads, ClientGen.bodyReads in *;
    simpl; rewrite ?omap_app; simpl; by rewrite ?Hreq, ?Hfile, ?Hbody.
Qed.

(** X16. In every run [main] retrieves the description exactly once: by one
    HTTP request when the location starts with [http://] or [https://], by
    one file read otherwise, never both; and the body of a response is read
    only after status 200. *)
Theorem X16_client_retrieves_spec_once os cli :
  let out := (ClientGen.main os cli).1 in
  (if isRemote (ClientGen.Spec cli)
   then ClientGen.requests out = [ClientGen.Spec cli] ∧
        ClientGen.fileReads out = []
   else ClientGen.requests out = [] ∧
        ClientGen.fileReads out = [ClientGen.Spec cli]) ∧
  (ClientGen.bodyReads out ≠ [] →
   ∃ resp, ClientGen.http_Get os (ClientGen.Spec cli) = Ok resp ∧
           StatusCode resp = 200).
Proof.
  destruct (main_events os cli) as (rest & -> & Hreq & Hfile & Hbody).
  destruct (getSpecContent_reads os (ClientGen.Spec cli)) as [Hreads Hstatus].
  simpl in *.
  unfold ClientGen.requests, ClientGen.fileReads, ClientGen.bodyReads in *.
  rewrite !omap_app, Hreq, Hfile, Hbody, !app_nil_r. by split.
Qed.

Lemma removed_app out1 out2 :
  ClientGen.removed (out1 ++ out2)
  = ClientGen.removed out1 ++ ClientGen.removed out2.
Proof. apply omap_app. Qed.

(** X17. The temporary directory is removed exactly when [main] returns:
    then removing it is the last thing that happens. When the process is
    ended by a fatal error, the directory is never removed. *)
Theorem X17_client_temp_dir_cleanup os cli :
  match (ClientGen.main os cli).2 with
  | Ok _ =>
    ∃ tempDir,
      ClientGen.os_MkdirTemp os "" "oapi-codegen" = Ok tempDir ∧
      ClientGen.removed (ClientGen.main os cli).1 = [tempDir] ∧
      last (ClientGen.main os cli).1 = Some (ClientGen.RemoveAll tempDir)
  | Failed _ => ClientGen.removed (ClientGen.main os cli).1 = []
  end.
Proof.
  rewrite main_run.
  pose proof (getSpecContent_events os (ClientGen.Spec cli)) as Hfetch.
  apply fetchEvents_observed in Hfetch as (Hfetch & _ & _).
  destruct (ClientGen.getSpecContent os (ClientGen.Spec cli))
    as [out0 [specContent|err]]; simpl in *; [|done].
  destruct (ClientGen.os_MkdirTemp os "" "oapi-codegen") as [tempDir|err];
    simpl.
  - pose proof (inTempDir_events os cli specContent tempDir) as Hwork.
    apply workEvents_observed in Hwork as (_ & _ & _ & Hwork).
    destruct (ClientGen.inTempDir os cli specContent tempDir)
      as [out1 [[]|err]]; simpl in *.
    + exists tempDir. split; [done|].
      rewrite cons_middle, !removed_app, Hfetch, Hwork. split; [done|].
      by rewrite !app_assoc, last_snoc.
    + by rewrite cons_middle, !removed_app, Hfetch, Hwork.
  - by rewrite removed_app, Hfetch.
Qed.

Lemma emit_inv e out (r : result unit) :
  ClientGen.emit e = (out, r) → out = [e] ∧ r = Ok tt.
Proof. by intros [= <- <-]. Qed.

Lemma fatalIfError_Ok err message out :
  ClientGen.fatalIfError err message = (out, Ok tt) → err = None ∧ out = [].
Proof. destruct err; by intros [= <-]. Qed.

Lemma writeOutput_Ok os cli output out :
  ClientGen.writeOutput os cli output = (out, Ok tt) →
  let outputFilePath :=
    ClientGen.filepath_Join os
      [ClientGen.OutputDir cli; ClientGen.Filename cli] in
  output ≠ "" ∧
  ClientGen.os_WriteFile os outputFilePath output = None ∧
  out = [ClientGen.WriteFile outputFilePath output;
         ClientGen.Log ("Successfully generated client code at "
                        +:+ outputFilePath +:+ LF)].
Proof.
  unfold ClientGen.writeOutput. intros Hrun.
  apply pbind_Ok_inv in Hrun as (out1 & [] & out2 & Hcheck & Hrun & ->).
  apply pbind_Ok_inv in Hrun as (out3 & [] & out4 & Hwrite & Hrun & ->).
  apply pbind_Ok_inv in Hrun as (out5 & [] & out6 & Hsave & Hlog & ->).
  apply emit_inv in Hwrite as [-> _]. apply emit_inv in Hlog as [-> _].
  apply fatalIfError_Ok in Hsave as [Hsave ->].
  case_decide as Hlen.
  - unfold ClientGen.emit, ClientGen.pfail, mbind, ClientGen.P_bind in Hcheck.
    simpl in Hcheck. discriminate.
  - injection Hcheck as <-. split_and!; [|done|done].
    intros ->. by apply Hlen.
Qed.

Lemma runCodegen_Ok os cli tempSpecPath configPath configContent out output :
  ClientGen.runCodegen os cli tempSpecPath configPath configContent
    = (out, Ok output) →
  ∃ argv, argv ∈ ClientGen.commands out ∧
          ClientGen.cmd_CombinedOutput os argv = (output, None).
Proof.
  unfold ClientGen.runCodegen. intros Hrun.
  apply pbind_Ok_inv in Hrun as (out1 & cmd & out2 & _ & Hrun & ->).
  apply pbind_Ok_inv in Hrun as (out3 & [] & out4 & Hcmd & Hrun & ->).
  apply emit_inv in Hcmd as [-> _].
  destruct (ClientGen.cmd_CombinedOutput os cmd) as [output1 [err|]] eqn:Hdirect.
  - apply pbind_Ok_inv in Hrun as (out5 & [] & out6 & Hlog1 & Hrun & ->).
    apply pbind_Ok_inv in Hrun as (out7 & [] & out8 & Hlog2 & Hrun & ->).
    apply pbind_Ok_inv in Hrun as (out9 & [] & out10 & Hconfig & Hrun & ->).
    apply emit_inv in Hlog1 as [-> _]. apply emit_inv in Hlog2 as [-> _].
    apply emit_inv in Hconfig as [-> _].
    destruct (ClientGen.cmd_CombinedOutput os
                ["oapi-codegen"; "-config"; configPath; tempSpecPath])
      as [output2 [err'|]] eqn:Hfallback.
    + apply pbind_Ok_inv in Hrun as (? & [] & ? & _ & Hrun & _).
      apply pbind_Ok_inv in Hrun as (? & [] & ? & _ & Hrun & _).
      apply pbind_Ok_inv in Hrun as (? & [] & ? & _ & Hrun & _).
      discriminate.
    + injection Hrun as <- <-.
      exists ["oapi-codegen"; "-config"; configPath; tempSpecPath].
      split; [|done]. unfold ClientGen.commands. rewrite !omap_app. simpl.
      set_solver.
  - injection Hrun as <- <-. exists cmd. split; [|done].
    unfold ClientGen.commands. rewrite !omap_app. simpl. set_solver.
Qed.

Lemma app_prefix_exists {A} (a rest tail : list A) :
  (∃ pre, rest = pre ++ tail) → ∃ pre, a ++ rest = pre ++ tail.
Proof. intros [pre ->]. exists (a ++ pre). by rewrite app_assoc. Qed.

(** A run of [inTempDir] that returns ends with a run of [runCodegen] and
    one of [writeOutput] that return. *)
Lemma inTempDir_Ok os cli specContent tempDir out :
  ClientGen.inTempDir os cli specContent tempDir = (out, Ok tt) →
  ∃ outRun outWrite output,
    ClientGen.runCodegen os cli
      (ClientGen.filepath_Join os [tempDir; "spec.yaml"])
      (ClientGen.filepath_Join os [tempDir; "config.yaml"])
      (ClientGen.createConfigContent (ClientGen.Package cli)
         (ClientGen.GenerateTypes cli) (ClientGen.GenerateClient cli))
      = (outRun, Ok output) ∧
    ClientGen.writeOutput os cli output = (outWrite, Ok tt) ∧
    ∃ pre, out = pre ++ outRun ++ outWrite.
Proof.
  unfold ClientGen.inTempDir. intros Hrun.
  do 11 (apply pbind_Ok_inv in Hrun as (? & [] & ? & _ & Hrun & ->)).
  apply pbind_Ok_inv in Hrun as (outRun & output & outWrite & Hgen & Hwrite & ->).
  exists outRun, outWrite, output. split_and!; [done|done|].
  do 11 apply app_prefix_exists. by exists [].
Qed.

(** X18. When [main] returns, the last file it wrote is the output file
    [OutputDir/Filename]; its content is not empty and is what a run of
    [oapi-codegen] that ended without error printed, and the write
    succeeded. *)
Theorem X18_client_output os cli out :
  ClientGen.main os cli = (out, Ok tt) →
  let outputFilePath :=
    ClientGen.filepath_Join os
      [ClientGen.OutputDir cli; ClientGen.Filename cli] in
  ∃ output argv,
    last (ClientGen.written out) = Some (outputFilePath, output) ∧
    output ≠ "" ∧
    argv ∈ ClientGen.commands out ∧
    ClientGen.cmd_CombinedOutput os argv = (output, None) ∧
    ClientGen.os_WriteFile os outputFilePath output = None.
Proof.
  rewrite main_run. intros Hmain outputFilePath.
  destruct (ClientGen.getSpecContent os (ClientGen.Spec cli))
    as [out0 [specContent|err]]; [|done].
  destruct (ClientGen.os_MkdirTemp os "" "oapi-codegen") as [tempDir|err];
    [|done].
  destruct (ClientGen.inTempDir os cli specContent tempDir)
    as [out1 [[]|err]] eqn:Hbody; [|done].
  injection Hmain as <-.
  apply inTempDir_Ok in Hbody
    as (outRun & outWrite & output & Hgen & Hwrite & pre & ->).
  apply writeOutput_Ok in Hwrite as (Hnonempty & Hsave & ->).
  apply runCodegen_Ok in Hgen as (argv & Hargv & Hprinted).
  exists output, argv. split_and!; [|done| |done|done].
  - unfold ClientGen.written. rewrite cons_middle, !omap_app. simpl.
    by rewrite app_nil_r, !app_assoc, last_snoc.
  - unfold ClientGen.commands in *. rewrite cons_middle, !omap_app.
    set_solver.
Qed.

Lemma X18_client_output_witness :
  ∃ out,
    ClientGen.main ClientExample.osOldCodegen ClientExample.cli = (out, Ok tt) ∧
    last (ClientGen.written out)
      = Some ("./generated/api/client.go", "package api // from config").
Proof.
  destruct (ClientGen.main ClientExample.osOldCodegen ClientExample.cli)
    as [out r] eqn:Hmain.
  assert (r = Ok tt) as -> by (vm_compute in Hmain; congruence).
  exists out. split; [done|].
  destruct (X18_client_output ClientExample.osOldCodegen ClientExample.cli
              out Hmain) as (output & argv & Hlast & _ & _ & _ & _).
  rewrite Hlast. f_equal. f_equal.
  vm_compute in Hmain. injection Hmain as <-. vm_compute in Hlast.
  congruence.
Defined.

Lemma runCodegen_flags_off os cli tempSpecPath configPath configContent :
  ClientGen.GenerateTypes cli = false →
  ClientGen.GenerateClient cli = false →
  ClientGen.runCodegen os cli tempSpecPath configPath configContent
  = ([], Failed invalidOptions).
Proof.
  intros Htypes Hclient.
  unfold ClientGen.runCodegen, ClientGen.generateCommand.
  by rewrite Htypes, Hclient.
Qed.

Lemma inTempDir_flags_off os cli specContent tempDir :
  ClientGen.GenerateTypes cli = false →
  ClientGen.GenerateClient cli = false →
  Forall (preparationEvent os tempDir)
         (ClientGen.inTempDir os cli specContent tempDir).1.
Proof.
  intros Htypes Hclient. unfold ClientGen.inTempDir.
  rewrite runCodegen_flags_off by done.
  repeat first
    [ apply pbind_Forall; [|intros ? ?]
    | progress (unfold ClientGen.emit, ClientGen.fatalIfError, ClientGen.pret,
                  ClientGen.pfail)
    | case_match
    | progress simpl
    | by repeat constructor
    | by (repeat constructor; simpl; auto) ].
Qed.

(** X19. With both generate flags off, [main] never returns normally, it
    starts no [oapi-codegen] run that generates code (the only commands are
    the installation and the version query), and it writes nothing but the
    two temporary files; the output file is left untouched. *)
Theorem X19_client_nothing_to_generate os cli :
  ClientGen.GenerateTypes cli = false →
  ClientGen.GenerateClient cli = false →
  (∀ a, (ClientGen.main os cli).2 ≠ Ok a) ∧
  (∀ argv, argv ∈ ClientGen.commands (ClientGen.main os cli).1 →
     argv = ClientGen.installCommand ∨ argv = ["oapi-codegen"; "--version"]) ∧
  (∀ name data, (name, data) ∈ ClientGen.written (ClientGen.main os cli).1 →
     ∃ tempDir,
       ClientGen.os_MkdirTemp os "" "oapi-codegen" = Ok tempDir ∧
       (name = ClientGen.filepath_Join os [tempDir; "spec.yaml"] ∨
        name = ClientGen.filepath_Join os [tempDir; "config.yaml"])).
Proof.
  intros Htypes Hclient. rewrite main_run.
  pose proof (getSpecContent_events os (ClientGen.Spec cli)) as Hfetch.
  apply fetchEvents_observed in Hfetch as (_ & Hwritten0 & Hcommands0).
  destruct (ClientGen.getSpecContent os (ClientGen.Spec cli))
    as [out0 [specContent|err]]; simpl in *.
  2: { rewrite Hwritten0, Hcommands0. split_and!; [done|..]; set_solver. }
  destruct (ClientGen.os_MkdirTemp os "" "oapi-codegen") as [tempDir|err];
    simpl.
  2: { unfold ClientGen.written, ClientGen.commands in *.
       rewrite !omap_app, Hwritten0, Hcommands0. simpl.
       split_and!; [done|..]; set_solver. }
  pose proof (inTempDir_flags_off os cli specContent tempDir Htypes Hclient)
    as Hprep.
  destruct (ClientGen.inTempDir os cli specContent tempDir)
    as [out1 [[]|err]] eqn:Hbody; simpl in *.
  { apply inTempDir_Ok in Hbody as (? & ? & ? & Hgen & _).
    rewrite runCodegen_flags_off in Hgen by done. discriminate. }
  split_and!; [done|..].
  - intros command. unfold ClientGen.commands in *.
    rewrite cons_middle, !omap_app, Hcommands0. simpl.
    intros (e & He & Hargv)%list_elem_of_omap.
    rewrite Forall_forall in Hprep. specialize (Hprep e He).
    destruct e; simplify_eq/=. done.
  - intros file content. unfold ClientGen.written in *.
    rewrite cons_middle, !omap_app, Hwritten0. simpl.
    intros (e & He & Hargv)%list_elem_of_omap.
    rewrite Forall_forall in Hprep. specialize (Hprep e He).
    destruct e; simplify_eq/=. eauto.
Qed.

Lemma X19_client_nothing_to_generate_witness :
  ClientGen.main ClientExample.os ClientExample.cliNothing
    = ([ClientGen.HttpGet "https://example.com/api/openapi.json";
        ClientGen.ReadBody;
        ClientGen.MkdirTemp "" "oapi-codegen";
        ClientGen.WriteFile "/tmp/oapi-codegen1/spec.yaml" "openapi: 3.0.0";
        ClientGen.WriteFile "/tmp/oapi-codegen1/config.yaml"
          (ClientGen.createConfigContent "api" false false);
        ClientGen.LookPath "oapi-codegen";
        ClientGen.MkdirAll "./generated/api";
        ClientGen.Log ("Generating client code..." +:+ LF);
        ClientGen.Run ["oapi-codegen"; "--version"];
        ClientGen.Log ("oapi-codegen version: package api" +:+ LF)],
       Failed invalidOptions) ∧
  (∀ a, (ClientGen.main ClientExample.os ClientExample.cliNothing).2 ≠ Ok a).
Proof.
  split; [vm_compute; reflexivity|].
  apply (X19_client_nothing_to_generate ClientExample.os
           ClientExample.cliNothing); reflexivity.
Defined.

(** ** The order of the commands *)

Lemma runCodegen_orderly os cli tempSpecPath configPath configContent :
  Forall (orderlyCommand os cli)
    (ClientGen.runCodegen os cli tempSpecPath configPath configContent).1.
Proof.
  unfold ClientGen.runCodegen.
  destruct (ClientGen.generateCommand cli tempSpecPath) as [cmd|] eqn:Hcmd;
    [|simpl; constructor].
  assert (∀ configPath' tempSpecPath',
            cmd ≠ ["oapi-codegen"; "-config"; configPath'; tempSpecPath'] ∧
            cmd ≠ ClientGen.installCommand) as Hdirect.
  { intros ??. unfold ClientGen.generateCommand in Hcmd.
    repeat case_match; simplify_eq; done. }
  apply pbind_Forall; [constructor|intros ? [= <-]].
  apply pbind_Forall.
  { constructor; [|constructor]. intros ? [= <-]. split.
    - intros ?. by destruct (Hdirect "" "") as [_ ?].
    - intros cp sp ?. by destruct (Hdirect cp sp) as [? _]. }
  intros _ _.
  destruct (ClientGen.cmd_CombinedOutput os cmd) as [output [err|]] eqn:Hrun;
    [|simpl; constructor].
  apply pbind_Forall; [by repeat constructor|intros _ _].
  apply pbind_Forall; [by repeat constructor|intros _ _].
  apply pbind_Forall.
  { constructor; [|constructor]. intros ? [= <-]. split; [done|].
    intros ?? [= <- <-]. eauto. }
  intros _ _. case_match. case_match; [|simpl; constructor].
  repeat (apply pbind_Forall; [by repeat constructor|intros _ _]).
  simpl. constructor.
Qed.

Lemma writeOutput_orderly os cli output :
  Forall (orderlyCommand os cli) (ClientGen.writeOutput os cli output).1.
Proof. unfold ClientGen.writeOutput. client_events. Qed.

Ltac quiet_step :=
  apply pbind_Forall;
    [ first [ by repeat constructor
            | by (unfold ClientGen.fatalIfError; case_match;
                  repeat constructor) ]
    | intros _ _ ].

Lemma inTempDir_orderly os cli specContent tempDir :
  Forall (orderlyCommand os cli)
         (ClientGen.inTempDir os cli specContent tempDir).1.
Proof.
  unfold ClientGen.inTempDir.
  do 5 quiet_step.
  apply pbind_Forall.
  { destruct (ClientGen.exec_LookPath os "oapi-codegen") eqn:Hlook;
      [|simpl; constructor].
    quiet_step.
    apply pbind_Forall; [|intros _ _; by destruct (ClientGen.cmd_Run _ _)].
    constructor; [|constructor]. intros ? [= <-].
    split; [by rewrite Hlook|done]. }
  intros _ _.
  do 3 quiet_step.
  apply pbind_Forall.
  { constructor; [|constructor]. intros ? [= <-]. by split. }
  intros _ _.
  quiet_step.
  apply pbind_Forall; [apply runCodegen_orderly|intros output _].
  apply writeOutput_orderly.
Qed.

(** X20. [main] starts the installation of [oapi-codegen] only when the
    program was not found, and it starts the command with the configuration
    file only when there is a direct command and that command failed. *)
Theorem X20_client_command_order os cli :
  (ClientGen.installCommand ∈ ClientGen.commands (ClientGen.main os cli).1 →
   ClientGen.exec_LookPath os "oapi-codegen" ≠ None) ∧
  (∀ configPath tempSpecPath,
     ["oapi-codegen"; "-config"; configPath; tempSpecPath]
       ∈ ClientGen.commands (ClientGen.main os cli).1 →
     ∃ cmd output err,
       ClientGen.generateCommand cli tempSpecPath = Some cmd ∧
       ClientGen.cmd_CombinedOutput os cmd = (output, Some err)).
Proof.
  assert (Forall (orderlyCommand os cli) (ClientGen.main os cli).1) as Hall.
  { rewrite main_run.
    pose proof (getSpecContent_events os (ClientGen.Spec cli)) as Hfetch.
    assert (Forall (orderlyCommand os cli)
              (ClientGen.getSpecContent os (ClientGen.Spec cli)).1) as Hfetch'.
    { eapply Forall_impl; [exact Hfetch|]. by intros [] ?. }
    destruct (ClientGen.getSpecContent os (ClientGen.Spec cli))
      as [out0 [specContent|err]]; simpl in *; [|done].
    destruct (ClientGen.os_MkdirTemp os "" "oapi-codegen") as [tempDir|err];
      simpl.
    - pose proof (inTempDir_orderly os cli specContent tempDir) as Hbody.
      destruct (ClientGen.inTempDir os cli specContent tempDir)
        as [out1 [[]|err]]; simpl in *;
        rewrite cons_middle, ?Forall_app; split_and!; try done;
        by repeat constructor.
    - apply Forall_app. split; [done|]. by repeat constructor. }
  rewrite Forall_forall in Hall. split.
  - intros (e & He & Hargv)%list_elem_of_omap.
    destruct e; simplify_eq/=. by destruct (Hall _ He _ eq_refl) as [Hinstall _]; auto.
  - intros configPath tempSpecPath (e & He & Hargv)%list_elem_of_omap.
    destruct e; simplify_eq/=.
    destruct (Hall _ He _ eq_refl) as [_ Hconfig]. by eapply Hconfig.
Qed.

(** ** Two runs under different range orders *)

(** X21. Whatever orders the two range statements take in two runs on the
    same description, the two synthesized programs register the same tools:
    the lists of tool names are permutations of each other. *)
Theorem X21_same_tools_in_any_order rt1 rt2 cli doc :
  GoRange rt1 → GoRange rt2 →
  registeredTools (mainOf (generatedFile rt1 cli doc))
  ≡ₚ registeredTools (mainOf (generatedFile rt2 cli doc)).
Proof.
  intros [Hpaths1 Hops1] [Hpaths2 Hops2]. unfold generatedFile.
  rewrite !mainOf_synthesize, !registeredTools_mainBody.
  rewrite (Hops1 (tableOf rt1 doc)), (Hops2 (tableOf rt2 doc)).
  rewrite !table_identifiers by apply extractOperations_invariant.
  apply NoDup_Permutation; [apply NoDup_fst_map_to_list..|].
  intros id.
  assert (∀ rt, GoRange rt →
            id ∈ (map_to_list (tableOf rt doc)).*1 ↔
            id ≠ "" ∧ definesOperation doc id) as Hkeys.
  { intros rt [Hpaths _]. unfold tableOf.
    rewrite <-(extractOperations_defines doc _ id (Hpaths _)).
    rewrite list_elem_of_fmap. split.
    - intros ([key op] & -> & Hin). apply elem_of_map_to_list in Hin. eauto.
    - intros [op Hop]. exists (id, op). split; [done|].
      by apply elem_of_map_to_list. }
  rewrite !Hkeys; [done|by split..].
Qed.

Lemma X21_same_tools_in_any_order_witness :
  GoRange Example.rt ∧ GoRange Example.rtReversed ∧
  registeredTools (mainOf (generatedFile Example.rt Example.cli Example.doc))
  ≡ₚ registeredTools
       (mainOf (generatedFile Example.rtReversed Example.cli Example.doc)).
Proof.
  assert (GoRange Example.rt) as Hrange by by apply GoRange_world.
  assert (GoRange Example.rtReversed) as Hreversed.
  { apply GoRange_world. intros. apply reverse_Permutation. }
  split; [exact Hrange|]. split; [exact Hreversed|].
  apply (X21_same_tools_in_any_order Example.rt Example.rtReversed).
  - exact Hrange.
  - exact Hreversed.
Defined.

(** ** When the invalid options are reported *)

Ltac wrong_message H :=
  apply (f_equal snd) in H; vm_compute in H; discriminate H.

Lemma fatalIfError_not_invalid err message out :
  String.get 0 message = Some "E"%char →
  ClientGen.fatalIfError err message = (out, Failed invalidOptions) → False.
Proof.
  destruct err as [err|]; [|done]. intros Hfirst [= _ Heq].
  apply (f_equal (String.get 0)) in Heq.
  destruct message as [|c message]; [done|].
  simpl in Hfirst. injection Hfirst as ->. vm_compute in Heq. discriminate.
Qed.

Lemma fatalIfError_Failed_inv err message out text :
  ClientGen.fatalIfError err message = (out, Failed text) → out = [].
Proof. destruct err; by intros [= <-]. Qed.

Lemma runCodegen_invalid os cli tempSpecPath configPath configContent out :
  ClientGen.runCodegen os cli tempSpecPath configPath configContent
    = (out, Failed invalidOptions) →
  ClientGen.GenerateTypes cli = false ∧
  ClientGen.GenerateClient cli = false ∧ out = [].
Proof.
  unfold ClientGen.runCodegen.
  destruct (ClientGen.generateCommand cli tempSpecPath) as [cmd|] eqn:Hcmd.
  - intros Hrun.
    apply pbind_Failed_inv in Hrun
      as [[=]|(? & ? & ? & [= <- <-] & Hrun & ->)].
    apply pbind_Failed_inv in Hrun as [[=]|(? & [] & ? & _ & Hrun & ->)].
    destruct (ClientGen.cmd_CombinedOutput os cmd) as [? [?|]]; [|done].
    do 3 (apply pbind_Failed_inv in Hrun
            as [[=]|(? & [] & ? & _ & Hrun & ->)]).
    destruct (ClientGen.cmd_CombinedOutput os _) as [? [?|]]; [|done].
    do 3 (apply pbind_Failed_inv in Hrun
            as [[=]|(? & [] & ? & _ & Hrun & ->)]).
    wrong_message Hrun.
  - intros Hrun.
    apply pbind_Failed_inv in Hrun as [[= <-]|(? & ? & ? & [=] & _)].
    unfold ClientGen.generateCommand in Hcmd.
    by destruct (ClientGen.GenerateClient cli), (ClientGen.GenerateTypes cli).
Qed.

Lemma writeOutput_not_invalid os cli output out :
  ClientGen.writeOutput os cli output = (out, Failed invalidOptions) → False.
Proof.
  unfold ClientGen.writeOutput. intros Hrun.
  apply pbind_Failed_inv in Hrun as [Hrun|(? & [] & ? & _ & Hrun & ->)].
  { case_decide; [|done].
    apply pbind_Failed_inv in Hrun as [[=]|(? & [] & ? & _ & Hrun & ->)].
    wrong_message Hrun. }
  apply pbind_Failed_inv in Hrun as [[=]|(? & [] & ? & _ & Hrun & ->)].
  apply pbind_Failed_inv in Hrun as [Hrun|(? & [] & ? & _ & [=] & ->)].
  by apply fatalIfError_not_invalid in Hrun.
Qed.

(** X22. The check of the two generate flags comes late: when [main] ends
    with the "invalid options" message, both flags are off and by then the
    description was retrieved, both temporary files were written and the
    output directory was created; the temporary directory stays behind. *)
Theorem X22_client_invalid_options_late os cli out :
  ClientGen.main os cli = (out, Failed invalidOptions) →
  ClientGen.GenerateTypes cli = false ∧
  ClientGen.GenerateClient cli = false ∧
  ClientGen.MkdirAll (ClientGen.OutputDir cli) ∈ out ∧
  length (ClientGen.written out) = 2%nat ∧
  ClientGen.removed out = [].
Proof.
  intros Hmain. rewrite main_run in Hmain.
  pose proof (getSpecContent_events os (ClientGen.Spec cli)) as Hfetch.
  apply fetchEvents_observed in Hfetch as (Hremoved0 & Hwritten0 & _).
  destruct (ClientGen.getSpecContent os (ClientGen.Spec cli))
    as [out0 [specContent|err]]; simpl in *.
  2: { wrong_message Hmain. }
  destruct (ClientGen.os_MkdirTemp os "" "oapi-codegen") as [tempDir|err].
  2: { wrong_message Hmain. }
  destruct (ClientGen.inTempDir os cli specContent tempDir)
    as [out1 [[]|err]] eqn:Hbody; [done|].
  injection Hmain as <- ->.
  assert (ClientGen.removed
            (out0 ++ ClientGen.MkdirTemp "" "oapi-codegen" :: out1) = [])
    as Hremoved.
  { pose proof (inTempDir_events os cli specContent tempDir) as Hwork.
    rewrite Hbody in Hwork. simpl in Hwork.
    apply workEvents_observed in Hwork as (_ & _ & _ & Hwork).
    by rewrite cons_middle, !removed_app, Hremoved0, Hwork. }
  unfold ClientGen.inTempDir in Hbody.
  apply pbind_Failed_inv in Hbody as [[=]|(? & [] & ? & [= <-] & Hbody & ->)].
  apply pbind_Failed_inv in Hbody
    as [Hbody|(? & [] & ? & [_ ->]%fatalIfError_Ok & Hbody & ->)];
    [by apply fatalIfError_not_invalid in Hbody|].
  apply pbind_Failed_inv in Hbody as [[=]|(? & [] & ? & [= <-] & Hbody & ->)].
  apply pbind_Failed_inv in Hbody
    as [Hbody|(? & [] & ? & [_ ->]%fatalIfError_Ok & Hbody & ->)];
    [by apply fatalIfError_not_invalid in Hbody|].
  apply pbind_Failed_inv in Hbody as [[=]|(? & [] & ? & [= <-] & Hbody & ->)].
  apply pbind_Failed_inv in Hbody
    as [Hbody|(outInstall & [] & ? & Hinstall & Hbody & ->)].
  { destruct (ClientGen.exec_LookPath os "oapi-codegen"); [|done].
    do 2 (apply pbind_Failed_inv in Hbody
            as [[=]|(? & [] & ? & _ & Hbody & ->)]).
    by apply fatalIfError_not_invalid in Hbody. }
  assert (ClientGen.written outInstall = []) as HwrittenInstall.
  { destruct (ClientGen.exec_LookPath os "oapi-codegen"); [|by injection Hinstall as <-].
    do 2 (apply pbind_Ok_inv in Hinstall
            as (? & [] & ? & [= <-] & Hinstall & ->)).
    by apply fatalIfError_Ok in Hinstall as [_ ->]. }
  apply pbind_Failed_inv in Hbody as [[=]|(? & [] & ? & [= <-] & Hbody & ->)].
  apply pbind_Failed_inv in Hbody
    as [Hbody|(? & [] & ? & [_ ->]%fatalIfError_Ok & Hbody & ->)];
    [by apply fatalIfError_not_invalid in Hbody|].
  do 3 (apply pbind_Failed_inv in Hbody
          as [[=]|(? & [] & ? & [= <-] & Hbody & ->)]).
  apply pbind_Failed_inv in Hbody
    as [Hbody|(? & ? & ? & _ & Hbody & ->)];
    [|by apply writeOutput_not_invalid in Hbody].
  apply runCodegen_invalid in Hbody as (Htypes & Hclient & ->).
  split_and!; [done|done| | |done].
  - set_solver.
  - unfold ClientGen.written in *. rewrite cons_middle, !omap_app.
    rewrite Hwritten0, HwrittenInstall. done.
Qed.

Lemma X22_client_invalid_options_late_witness :
  ∃ out,
    ClientGen.main ClientExample.os ClientExample.cliNothing
      = (out, Failed invalidOptions) ∧
    ClientGen.MkdirAll "./generated/api" ∈ out ∧
    length (ClientGen.written out) = 2%nat ∧
    ClientGen.removed out = [].
Proof.
  destruct (ClientGen.main ClientExample.os ClientExample.cliNothing)
    as [out r] eqn:Hmain.
  assert (r = Failed invalidOptions) as ->.
  { pose proof Hmain as Hrun. vm_compute in Hrun.
    injection Hrun as _ <-. reflexivity. }
  exists out. split; [done|].
  by destruct (X22_client_invalid_options_late ClientExample.os
                 ClientExample.cliNothing out Hmain) as (_ & _ & ? & ? & ?).
Defined.
